(** * Block indentation plugin (ckeditor5-indent, [indentblock.ts])

  A shallow embedding of the [IndentBlock] plugin: its constructor, [init],
  [afterInit] and the two conversion set-up procedures, together with the
  narrow interfaces of the editor it talks to (configuration store, command
  registry, conversion registry, schema). *)

From Stdlib Require Import ZArith Ascii.
From stdpp Require Import base option list strings gmap fin_maps.

Local Open Scope string_scope.
Local Open Scope list_scope.

(** ** Results of fallible code *)

Module Js.

(** What a call may throw. *)
Inductive Error : Type :=
| TypeError (what : string)
| SyntaxError (what : string)
| CKEditorError (code : string).

Inductive Result (A : Type) : Type :=
| Ok (a : A)
| Throw (e : Error).
Arguments Ok {A} a.
Arguments Throw {A} e.

#[global] Instance Result_ret : MRet Result := fun A a => Ok a.
#[global] Instance Result_bind : MBind Result := fun A B f m =>
  match m with
  | Ok a => f a
  | Throw e => Throw e
  end.

(** Truthiness of a value of type [string | undefined]: the empty string
    and [undefined] are falsy. *)
Definition truthy (v : option string) : bool :=
  match v with
  | Some s => negb (bool_decide (s = ""))
  | None => false
  end.

End Js.
Export Js.

(** ** Regular expressions used by the plugin

  Only the shape [/[...]+/] with class escapes occurs in the source. Strings
  are sequences of 8-bit code units. *)

Module RegExp.

Inductive ClassEscape : Type :=
| cls_s   (* \s *)
| cls_S.  (* \S *)

Inductive RegExp : Type :=
| ClassPlus (cls : list ClassEscape).   (* /[cls]+/ *)

(** White space code units: TAB, LF, VT, FF, CR, SP and NBSP. *)
Definition isWhiteSpace (c : Ascii.ascii) : bool :=
  let n := Z.of_nat (Ascii.nat_of_ascii c) in
  (((9 <=? n) && (n <=? 13)) || (n =? 32) || (n =? 160))%Z.

Definition escape_matches (ce : ClassEscape) (c : Ascii.ascii) : bool :=
  match ce with
  | cls_s => isWhiteSpace c
  | cls_S => negb (isWhiteSpace c)
  end.

Definition class_matches (cls : list ClassEscape) (c : Ascii.ascii) : bool :=
  existsb (fun ce => escape_matches ce c) cls.

(** Longest run of class members at the front of [s]. *)
Fixpoint run_length (cls : list ClassEscape) (s : string) : nat :=
  match s with
  | EmptyString => O
  | String c s' => if class_matches cls c then S (run_length cls s') else O
  end.

(** [re.test(s)]: an unanchored search for one or more class members. *)
Fixpoint test_from (cls : list ClassEscape) (s : string) : bool :=
  match s with
  | EmptyString => false
  | String _ s' => bool_decide (run_length cls s ≠ O) || test_from cls s'
  end.

Definition test (re : RegExp) (s : string) : bool :=
  match re with
  | ClassPlus cls => test_from cls s
  end.

(** A string made of white space only. *)
Fixpoint all_whitespace (s : string) : bool :=
  match s with
  | EmptyString => true
  | String c s' => isWhiteSpace c && all_whitespace s'
  end.

End RegExp.

(** ** View elements and conversion definitions *)

Module View.

(** Modelled from the spec: the engine's view element, of which the plugin
    uses the element name ([is( 'element', name )]) and the inline styles
    ([getStyle]); the class set is what class descriptors are applied to. *)
Record ViewElement : Type := mkViewElement {
  name : string;
  styles : gmap string string;
  classes : gset string
}.

Definition is_element (el : ViewElement) (n : string) : bool :=
  bool_decide (name el = n).

Definition getStyle (el : ViewElement) (property : string) : option string :=
  styles el !! property.

Definition setStyle (property value : string) (el : ViewElement) : ViewElement :=
  mkViewElement (name el) (<[property := value]> (styles el)) (classes el).

(** The [view] part of an upcast definition: [{ styles: { p: re, ... } }]. *)
Record MatcherPattern : Type := mkPattern {
  pattern_styles : list (string * RegExp.RegExp)
}.

(** Modelled from the spec: the engine's matcher; every style of the
    pattern is present on the element with a value the expression accepts. *)
Definition matches (p : MatcherPattern) (el : ViewElement) : bool :=
  forallb (fun '(property, re) =>
             match getStyle el property with
             | Some v => RegExp.test re v
             | None => false
             end) (pattern_styles p).

Inductive DescriptorValue : Type :=
| StyleValue (props : gmap string string)   (* value: { p: v } *)
| ClassValue (names : list string).         (* value: [ c ] *)

(** [{ key, value }] as returned by a downcast view function. *)
Record AttributeDescriptor : Type := mkDescriptor {
  key : string;
  value : DescriptorValue
}.

(** Modelled from the spec: how the engine writes a descriptor onto a view
    element. A [style] descriptor sets each listed property, a [class]
    descriptor adds each listed class. *)
Definition applyDescriptor (d : AttributeDescriptor) (el : ViewElement) : ViewElement :=
  match value d with
  | StyleValue props =>
      if bool_decide (key d = "style")
      then mkViewElement (name el) (props ∪ styles el) (classes el)
      else el
  | ClassValue names =>
      if bool_decide (key d = "class")
      then mkViewElement (name el) (styles el) (list_to_set names ∪ classes el)
      else el
  end.

End View.

Module Conversion.
Import View.

(** Argument of [conversion.for( 'upcast' ).attributeToAttribute]. *)
Record UpcastDefinition : Type := mkUpcast {
  up_view : MatcherPattern;
  up_model_key : string;
  up_model_value : ViewElement -> option string
}.

(** Argument of [conversion.for( 'downcast' ).attributeToAttribute]. *)
Record DowncastDefinition : Type := mkDowncast {
  down_model : string;
  down_view : string -> AttributeDescriptor
}.

(** Argument of the two-way [conversion.attributeToAttribute]. *)
Record TwoWayDefinition : Type := mkTwoWay {
  tw_model_key : string;
  tw_model_values : list string;
  tw_view : gmap string AttributeDescriptor
}.

(** A registration received by the conversion registry. *)
Inductive Registration : Type :=
| ForUpcast (d : UpcastDefinition)
| ForDowncast (d : DowncastDefinition)
| TwoWay (d : TwoWayDefinition).

(** Modelled from the spec: an upcast rule is a matcher plus a transform;
    when the matcher accepts the element and the transform yields a value,
    the model attribute [(key, value)] is set, otherwise it is left unset. *)
Definition upcast (d : UpcastDefinition) (el : ViewElement) : option (string * string) :=
  if matches (up_view d) el
  then match up_model_value d el with
       | Some v => Some (up_model_key d, v)
       | None => None
       end
  else None.

(** Modelled from the spec: a downcast rule fires on its model attribute key
    and writes the descriptor computed from the value onto the view element. *)
Definition downcast (d : DowncastDefinition) (attr : string * string)
    (el : ViewElement) : ViewElement :=
  if bool_decide (attr.1 = down_model d)
  then applyDescriptor (down_view d attr.2) el
  else el.

End Conversion.

(** ** Commands and the command registry *)

Module Commands.

Inductive Direction : Type := forward | backward.

(** Modelled from the spec: the behaviours handed to [IndentBlockCommand],
    as the constructor calls in [init] build them; the fields are the
    configuration values as read, which may be [undefined]. *)
Inductive IndentBehavior : Type :=
| IndentUsingClasses (direction : Direction) (classes : list string)
| IndentUsingOffset (direction : Direction) (attribute : option string)
    (offset : option Z) (unit : option string).

(** Modelled from the spec: command objects. A multi-command holds
    references to its children, in registration order. *)
Inductive Command : Type :=
| IndentBlockCommand (behavior : IndentBehavior)
| MultiCommand (children : list nat)
| OtherCommand (label : string).

Definition is_offset_command (c : Command) : bool :=
  match c with
  | IndentBlockCommand (IndentUsingOffset _ _ _ _) => true
  | _ => false
  end.

Definition is_classes_command (c : Command) : bool :=
  match c with
  | IndentBlockCommand (IndentUsingClasses _ _) => true
  | _ => false
  end.

End Commands.

(** ** Schema *)

Module Schema.

Inductive Call : Type :=
| CallExtend (itemName : string) (allowAttributes : string)
| CallSetAttributeProperties (attributeName : string) (props : gmap string bool).

(** Modelled from the spec: the schema registry, element name to allowed
    attribute names and attribute name to property bag, with the calls it
    has received. *)
Record Schema : Type := mkSchema {
  definitions : gmap string (list string);
  attributeProperties : gmap string (gmap string bool);
  calls : list Call
}.

Definition isRegistered (s : Schema) (itemName : string) : bool :=
  bool_decide (is_Some (definitions s !! itemName)).

Definition checkAttribute (s : Schema) (itemName attributeName : string) : bool :=
  match definitions s !! itemName with
  | Some allowed => bool_decide (attributeName ∈ allowed)
  | None => false
  end.

(** Modelled from the spec: [extend] adds an allowed attribute to a
    registered item; extending an item that is not registered fails fast. *)
Definition extend (itemName allowAttributes : string) (s : Schema) : Result Schema :=
  match definitions s !! itemName with
  | Some allowed =>
      Ok (mkSchema (<[itemName := allowed ++ [allowAttributes]]> (definitions s))
            (attributeProperties s)
            (calls s ++ [CallExtend itemName allowAttributes]))
  | None => Throw (CKEditorError "schema-cannot-extend-missing-item")
  end.

(** Modelled from the spec: the property bag of an attribute, empty when
    none was set; [setAttributeProperties] merges the new properties in. *)
Definition getAttributeProperties (s : Schema) (attributeName : string) : gmap string bool :=
  default ∅ (attributeProperties s !! attributeName).

Definition setAttributeProperties (attributeName : string) (props : gmap string bool)
    (s : Schema) : Schema :=
  mkSchema (definitions s)
    (<[attributeName := props ∪ getAttributeProperties s attributeName]> (attributeProperties s))
    (calls s ++ [CallSetAttributeProperties attributeName props]).

Definition extend_calls (s : Schema) : list string :=
  omap (fun c => match c with
                 | CallExtend n _ => Some n
                 | CallSetAttributeProperties _ _ => None
                 end) (calls s).

End Schema.

(** ** The editor as the plugin sees it *)

Module Editor.
Import Commands.

(** [editor.config.get( 'indentBlock' )]. *)
Record IndentBlockConfig : Type := mkConfig {
  cfg_attribute : option string;
  cfg_offset : option Z;
  cfg_unit : option string;
  cfg_classes : option (list string)
}.

(** An entry of [heading.options]. *)
Record HeadingOption : Type := mkHeadingOption {
  model : string;
  title : string
}.

Inductive LanguageDirection : Type := ltr | rtl.

Inductive StyleProcessorRules : Type := addMarginRules.

(** The parts of the editor the plugin reads and writes. [editor.indentBlock]
    is read without a guard in [_setupConversionUsingOffset], so it is taken
    as always present; its [attribute] is a [string | undefined]. The
    configured [offset] is a number, kept as an integer since the plugin only
    passes it on. *)
Record Editor : Type := mkEditor {
  config_indentBlock : option IndentBlockConfig;
  config_heading_options : option (list HeadingOption);
  (* editor.indentBlock.attribute *)
  indentBlock_attribute : option string;
  (* editor.locale.contentLanguageDirection *)
  contentLanguageDirection : LanguageDirection;
  (* registrations received by editor.conversion, oldest first *)
  conversion : list Conversion.Registration;
  (* editor.data.addStyleProcessorRules *)
  styleProcessorRules : list StyleProcessorRules;
  (* command objects by reference, and editor.commands: name to reference *)
  objects : list Command;
  commands : gmap string nat;
  schema : Schema.Schema
}.

Definition set_config_indentBlock (c : option IndentBlockConfig) (e : Editor) : Editor :=
  mkEditor c (config_heading_options e) (indentBlock_attribute e)
    (contentLanguageDirection e) (conversion e) (styleProcessorRules e)
    (objects e) (commands e) (schema e).

Definition set_schema (s : Schema.Schema) (e : Editor) : Editor :=
  mkEditor (config_indentBlock e) (config_heading_options e) (indentBlock_attribute e)
    (contentLanguageDirection e) (conversion e) (styleProcessorRules e)
    (objects e) (commands e) s.

Definition register (r : Conversion.Registration) (e : Editor) : Editor :=
  mkEditor (config_indentBlock e) (config_heading_options e) (indentBlock_attribute e)
    (contentLanguageDirection e) (conversion e ++ [r]) (styleProcessorRules e)
    (objects e) (commands e) (schema e).

Definition addStyleProcessorRules (r : StyleProcessorRules) (e : Editor) : Editor :=
  mkEditor (config_indentBlock e) (config_heading_options e) (indentBlock_attribute e)
    (contentLanguageDirection e) (conversion e) (styleProcessorRules e ++ [r])
    (objects e) (commands e) (schema e).

(** Modelled from the spec: [editor.commands.add( name, new C(...) )]. The
    object is allocated, then registered; a name already taken is a fatal
    configuration error. *)
Definition commands_add (cmdName : string) (c : Command) (e : Editor) : Result Editor :=
  match commands e !! cmdName with
  | Some _ => Throw (CKEditorError "commandcollection-command-already-registered")
  | None =>
      Ok (mkEditor (config_indentBlock e) (config_heading_options e) (indentBlock_attribute e)
            (contentLanguageDirection e) (conversion e) (styleProcessorRules e)
            (objects e ++ [c]) (<[cmdName := length (objects e)]> (commands e)) (schema e))
  end.

(** [editor.commands.get( name )] followed by a read of the object. *)
Definition commands_get (cmdName : string) (e : Editor) : option Command :=
  r ← commands e !! cmdName; objects e !! r.

(** Modelled from the spec: [parent.registerChildCommand( child )] where both
    come from [editor.commands.get] and may be [undefined]; the child is put
    last in the parent's ordered list. *)
Definition registerChildCommand (parent child : option nat) (e : Editor) : Result Editor :=
  match parent with
  | None => Throw (TypeError "cannot read registerChildCommand of undefined")
  | Some p =>
      match objects e !! p with
      | Some (MultiCommand children) =>
          match child with
          | None => Throw (TypeError "child command is undefined")
          | Some c =>
              Ok (mkEditor (config_indentBlock e) (config_heading_options e)
                    (indentBlock_attribute e) (contentLanguageDirection e) (conversion e)
                    (styleProcessorRules e)
                    (<[p := MultiCommand (children ++ [c])]> (objects e))
                    (commands e) (schema e))
          end
      | _ => Throw (TypeError "registerChildCommand is not a function")
      end
  end.

End Editor.

(** ** The plugin *)

Module IndentBlock.
Import RegExp View Conversion Commands Editor.

Definition DEFAULT_ELEMENTS : list string :=
  [ "paragraph"; "heading1"; "heading2"; "heading3"; "heading4"; "heading5"; "heading6" ].

(** *** Constructor *)

Inductive Literal : Type :=
| StringLiteral (s : string)
| NumericLiteral (n : Z).

(** A property of an object literal as it is written: the name, the code
    point of the character standing between name and value, the value. *)
Record PropertyDefinition : Type := mkProperty {
  prop_name : string;
  prop_separator : Z;
  prop_value : Literal
}.

Definition COLON : Z := 58.             (* U+003A *)
Definition FULLWIDTH_COLON : Z := 65306. (* U+FF1A *)

(** The literal handed to [editor.config.define( 'indentBlock', ... )]. *)
Definition defaults_literal : list PropertyDefinition :=
  [ mkProperty "attribute" FULLWIDTH_COLON (StringLiteral "margin-left");
    mkProperty "offset" COLON (NumericLiteral 40);
    mkProperty "unit" COLON (StringLiteral "px") ].

Definition empty_config : IndentBlockConfig := mkConfig None None None None.

Definition assign (c : IndentBlockConfig) (p : PropertyDefinition) : IndentBlockConfig :=
  match prop_value p with
  | StringLiteral s =>
      if bool_decide (prop_name p = "attribute")
      then mkConfig (Some s) (cfg_offset c) (cfg_unit c) (cfg_classes c)
      else if bool_decide (prop_name p = "unit")
      then mkConfig (cfg_attribute c) (cfg_offset c) (Some s) (cfg_classes c)
      else c
  | NumericLiteral n =>
      if bool_decide (prop_name p = "offset")
      then mkConfig (cfg_attribute c) (Some n) (cfg_unit c) (cfg_classes c)
      else c
  end.

(** An object literal denotes an object only when every property is written
    [name : value] with U+003A; any other character there is a syntax error. *)
Definition evalObjectLiteral (props : list PropertyDefinition) : Result IndentBlockConfig :=
  if forallb (fun p => (prop_separator p =? COLON)%Z) props
  then Ok (fold_left assign props empty_config)
  else Throw (SyntaxError "Invalid character").

Definition or_default {A} (user default_value : option A) : option A :=
  match user with
  | Some a => Some a
  | None => default_value
  end.

(** Modelled from the spec: [config.define] supplies defaults for the fields
    the user configuration leaves out. *)
Definition config_define (defaults : IndentBlockConfig) (e : Editor) : Editor :=
  let user := default empty_config (config_indentBlock e) in
  set_config_indentBlock
    (Some (mkConfig (or_default (cfg_attribute user) (cfg_attribute defaults))
             (or_default (cfg_offset user) (cfg_offset defaults))
             (or_default (cfg_unit user) (cfg_unit defaults))
             (or_default (cfg_classes user) (cfg_classes defaults)))) e.

Definition constructor (e : Editor) : Result Editor :=
  defaults ← evalObjectLiteral defaults_literal;
  Ok (config_define defaults e).

(** *** Conversion using offsets *)

Definition marginProperty (e : Editor) : string :=
  if truthy (indentBlock_attribute e) then "text-indent"
  else match contentLanguageDirection e with
       | rtl => "margin-right"
       | ltr => "margin-left"
       end.

Definition upcastDefinition (marginProperty : string) : UpcastDefinition :=
  {| up_view := mkPattern [ (marginProperty, ClassPlus [ cls_s; cls_S ]) ];
     up_model_key := "blockIndent";
     up_model_value := fun viewElement =>
       if negb (is_element viewElement "li")
       then getStyle viewElement marginProperty
       else None |}.

Definition downcastDefinition (marginProperty : string) : DowncastDefinition :=
  {| down_model := "blockIndent";
     down_view := fun modelAttributeValue =>
       {| key := "style";
          value := StyleValue {[ marginProperty := modelAttributeValue ]} |} |}.

Definition _setupConversionUsingOffset (e : Editor) : Editor :=
  let marginProperty := marginProperty e in
  register (ForDowncast (downcastDefinition marginProperty))
    (register (ForUpcast (upcastDefinition marginProperty)) e).

(** *** Conversion using classes *)

Definition classesDefinition (classes : list string) : TwoWayDefinition :=
  fold_left
    (fun definition className =>
       {| tw_model_key := tw_model_key definition;
          tw_model_values := tw_model_values definition ++ [ className ];
          tw_view := <[ className := {| key := "class"; value := ClassValue [ className ] |} ]>
                       (tw_view definition) |})
    classes
    {| tw_model_key := "blockIndent"; tw_model_values := []; tw_view := ∅ |}.

Definition _setupConversionUsingClasses (classes : list string) (e : Editor) : Editor :=
  register (TwoWay (classesDefinition classes)) e.

(** *** init *)

(** [configuration.classes && configuration.classes.length] *)
Definition classes_condition (configuration : IndentBlockConfig) : bool :=
  match cfg_classes configuration with
  | Some classes => negb (length classes =? 0)%nat
  | None => false
  end.

Definition init (e : Editor) : Result Editor :=
  match config_indentBlock e with
  | None => Throw (TypeError "cannot read classes of undefined")
  | Some configuration =>
      if classes_condition configuration then
        let classes := default [] (cfg_classes configuration) in
        let e := _setupConversionUsingClasses classes e in
        e ← commands_add "indentBlock"
              (IndentBlockCommand (IndentUsingClasses forward classes)) e;
        commands_add "outdentBlock"
          (IndentBlockCommand (IndentUsingClasses backward classes)) e
      else
        let e := addStyleProcessorRules addMarginRules e in
        let e := _setupConversionUsingOffset e in
        e ← commands_add "indentBlock"
              (IndentBlockCommand
                 (IndentUsingOffset forward (cfg_attribute configuration)
                    (cfg_offset configuration) (cfg_unit configuration))) e;
        commands_add "outdentBlock"
          (IndentBlockCommand
             (IndentUsingOffset backward (cfg_attribute configuration)
                (cfg_offset configuration) (cfg_unit configuration))) e
  end.

(** *** afterInit *)

(** The [knownElements.forEach] loop. *)
Fixpoint extendKnownElements (knownElements : list string) (s : Schema.Schema)
    : Result Schema.Schema :=
  match knownElements with
  | [] => Ok s
  | elementName :: rest =>
      if Schema.isRegistered s elementName
      then s ← Schema.extend elementName "blockIndent" s; extendKnownElements rest s
      else extendKnownElements rest s
  end.

Definition knownElements (e : Editor) : list string :=
  let options := config_heading_options e in
  let configuredElements := map model <$> options in
  default DEFAULT_ELEMENTS configuredElements.

Definition afterInit (e : Editor) : Result Editor :=
  let indentCommand := commands e !! "indent" in
  let outdentCommand := commands e !! "outdent" in
  s ← extendKnownElements (knownElements e) (schema e);
  let s := Schema.setAttributeProperties "blockIndent" {[ "isFormatting" := true ]} s in
  let e := set_schema s e in
  e ← registerChildCommand indentCommand (commands e !! "indentBlock") e;
  registerChildCommand outdentCommand (commands e !! "outdentBlock") e.

End IndentBlock.

(** ** Concrete editors and view elements *)

Module Examples.
Import View Commands Editor.

Definition schema0 : Schema.Schema :=
  Schema.mkSchema {[ "paragraph" := [ "alignment" ]; "heading1" := [] ]} ∅ [].

(** An editor with the Indent multi-commands loaded and a given
    configuration, [editor.indentBlock.attribute] and content direction. *)
Definition editor_with (c : option IndentBlockConfig) (a : option string)
    (d : LanguageDirection) : Editor :=
  mkEditor c None a d [] [] [ MultiCommand []; MultiCommand [] ]
    {[ "indent" := 0%nat; "outdent" := 1%nat ]} schema0.

Definition offset_config : IndentBlockConfig :=
  mkConfig (Some "margin-left") (Some 40%Z) (Some "px") None.

Definition classes_config : IndentBlockConfig :=
  mkConfig (Some "margin-left") (Some 40%Z) (Some "px") (Some [ "indent-a"; "indent-b" ]).

Definition empty_classes_config : IndentBlockConfig :=
  mkConfig (Some "margin-left") (Some 40%Z) (Some "px") (Some []).

(** [editor.indentBlock.attribute] set. *)
Definition editor_text_indent : Editor :=
  editor_with (Some offset_config) (Some "margin-left") ltr.

(** [editor.indentBlock.attribute] not set. *)
Definition editor_margin : Editor :=
  editor_with (Some offset_config) None ltr.

Definition editor_classes : Editor :=
  editor_with (Some classes_config) (Some "margin-left") ltr.

Definition editor_empty_classes : Editor :=
  editor_with (Some empty_classes_config) None ltr.

Definition element (n property v : string) : ViewElement :=
  mkViewElement n {[ property := v ]} ∅.

Definition bare (n : string) : ViewElement := mkViewElement n ∅ ∅.

End Examples.

(** ** Dropdown menu tree typings (ckeditor5-ui, [dropdownmenutreetypings.ts])

    The file declares types only. The tree nodes are embedded as values, the
    type-level numbers and the depth-indexed types as a decidable typing
    judgement on those values. *)

Module DropdownMenuTree.

(** A numeric type argument: a literal, or the wide type [number]. *)
Inductive Level : Type :=
| Lit (n : nat)
| Number.

Definition MaxDropdownTreeMenuDepth : nat := 6.

(** [[ 1, 2, ..., 10, ...Array<number> ][ N ]]: a literal inside the tuple
    picks the element at that index, anything else gives [number]. *)
Definition IncrementDropdownTreeDepth (N : Level) : Level :=
  match N with
  | Lit n =>
      match [ 1; 2; 3; 4; 5; 6; 7; 8; 9; 10 ]%nat !! n with
      | Some m => Lit m
      | None => Number
      end
  | Number => Number
  end.

(** [MaxDropdownTreeMenuDepth extends Level]: the literal 6 is assignable to
    the literal 6 and to [number], not to another literal. *)
Definition max_extends (L : Level) : bool :=
  match L with
  | Lit n => (n =? MaxDropdownTreeMenuDepth)%nat
  | Number => true
  end.

Record TreeSearchMetadata : Type := mkSearch {
  raw : string;
  text : string
}.

(** The two view classes an entry may hold. *)
Inductive View : Type :=
| DropdownMenuView (id : nat)
| DropdownMenuListItemButtonView (id : nat).

(** Tree entries, discriminated by their [type] field. *)
#[warnings="-register-all"]
Inductive Node : Type :=
| Item (search : TreeSearchMetadata) (item : View)                       (* type: 'Item' *)
| Menu (search : TreeSearchMetadata) (menu : View) (children : list Node) (* type: 'Menu' *)
| Root (children : list Node).                                           (* type: 'Root' *)

Definition type (n : Node) : string :=
  match n with
  | Item _ _ => "Item"
  | Menu _ _ _ => "Menu"
  | Root _ => "Root"
  end.

Definition isDropdownMenuView (v : View) : bool :=
  match v with
  | DropdownMenuView _ => true
  | DropdownMenuListItemButtonView _ => false
  end.

(** [n] has type [DropdownMenuViewsTreeChildItem<unknown, L>]: a flat item,
    or a nested menu at level [L], whose [children] are of type [never] when
    the maximum depth extends [L] and child items one level up otherwise. *)
Fixpoint isTreeChildItem (L : Level) (n : Node) : bool :=
  match n with
  | Item _ _ => true
  | Menu _ menu children =>
      isDropdownMenuView menu
      && (if max_extends L then false
          else forallb (isTreeChildItem (IncrementDropdownTreeDepth L)) children)
  | Root _ => false
  end.

(** [n] has type [DropdownMenuViewsRootTree<unknown>]; the children start at
    the default level 0. *)
Definition isRootTree (n : Node) : bool :=
  match n with
  | Root children => forallb (isTreeChildItem (Lit 0)) children
  | _ => false
  end.

(** [n] has type [DropdownMenusViewsTreeNode<unknown, L>]. *)
Definition isTreeNode (L : Level) (n : Node) : bool :=
  isTreeChildItem L n || isRootTree n.

(** Number of menus nested inside one another along the deepest branch. *)
Fixpoint menuDepth (n : Node) : nat :=
  match n with
  | Item _ _ => 0
  | Menu _ _ children => S (max_list_with menuDepth children)
  | Root children => max_list_with menuDepth children
  end.

(** [k] menus nested in one another, the innermost holding one flat item. *)
Fixpoint nested (k : nat) : Node :=
  match k with
  | O => Item (mkSearch "Bold" "bold") (DropdownMenuListItemButtonView 0)
  | S k' => Menu (mkSearch "Menu" "menu") (DropdownMenuView k) [ nested k' ]
  end.

End DropdownMenuTree.

(** ** Editors on which [init] has run *)

Module InitialisedExamples.
Import Commands Editor.

(** The four commands registered, 'indent' and 'outdent' without children
    yet; heading options as given. *)
Definition initialised_with (options : option (list HeadingOption)) : Editor :=
  mkEditor (Some Examples.offset_config) options None ltr [] []
    [ MultiCommand []; MultiCommand [];
      IndentBlockCommand (IndentUsingOffset forward (Some "margin-left") (Some 40%Z) (Some "px"));
      IndentBlockCommand (IndentUsingOffset backward (Some "margin-left") (Some 40%Z) (Some "px")) ]
    {[ "indent" := 0%nat; "outdent" := 1%nat; "indentBlock" := 2%nat; "outdentBlock" := 3%nat ]}
    Examples.schema0.

Definition editor_initialised : Editor := initialised_with None.

(** [heading.options] configured with one heading and no paragraph. *)
Definition editor_headings : Editor :=
  initialised_with (Some [ mkHeadingOption "heading1" "Heading 1" ]).

(** The Indent plugin is not loaded: no 'indent' and 'outdent' commands. *)
Definition editor_without_indent : Editor :=
  mkEditor (Some Examples.offset_config) None None ltr [] []
    [ IndentBlockCommand (IndentUsingOffset forward (Some "margin-left") (Some 40%Z) (Some "px"));
      IndentBlockCommand (IndentUsingOffset backward (Some "margin-left") (Some 40%Z) (Some "px")) ]
    {[ "indentBlock" := 0%nat; "outdentBlock" := 1%nat ]}
    Examples.schema0.

End InitialisedExamples.

(** * Properties *)

Import RegExp View Conversion Commands Editor IndentBlock.

(** ** The style pattern *)

Lemma class_sS_total (c : Ascii.ascii) : class_matches [ cls_s; cls_S ] c = true.
Proof.
  unfold class_matches; simpl.
  destruct (isWhiteSpace c); reflexivity.
Qed.

Lemma test_sS_nonempty (v : string) :
  RegExp.test (ClassPlus [ cls_s; cls_S ]) v = negb (bool_decide (v = "")).
Proof.
  destruct v as [| c v]; [reflexivity |].
  cbn [RegExp.test test_from run_length].
  rewrite class_sS_total.
  rewrite bool_decide_eq_true_2 by discriminate.
  rewrite bool_decide_eq_false_2 by discriminate.
  reflexivity.
Qed.

Lemma matches_upcastDefinition (mp : string) (el : ViewElement) :
  matches (up_view (upcastDefinition mp)) el =
  match getStyle el mp with
  | Some v => negb (bool_decide (v = ""))
  | None => false
  end.
Proof.
  unfold matches, upcastDefinition; cbn [up_view pattern_styles forallb].
  destruct (getStyle el mp) as [v |]; [| reflexivity].
  rewrite test_sS_nonempty. apply andb_true_r.
Qed.

Lemma downcast_is_setStyle (mp v : string) (el : ViewElement) :
  downcast (downcastDefinition mp) ("blockIndent", v) el = setStyle mp v el.
Proof.
  unfold downcast, applyDescriptor, setStyle; simpl.
  by rewrite insert_union_singleton_l.
Qed.

Lemma getStyle_setStyle (mp v : string) (el : ViewElement) :
  getStyle (setStyle mp v el) mp = Some v.
Proof. unfold getStyle, setStyle; simpl. apply lookup_insert_eq. Qed.

Lemma setupConversionUsingOffset_registrations (e : Editor) :
  conversion (_setupConversionUsingOffset e) =
  conversion e ++ [ ForUpcast (upcastDefinition (marginProperty e));
                    ForDowncast (downcastDefinition (marginProperty e)) ].
Proof.
  unfold _setupConversionUsingOffset, register; simpl.
  by rewrite <- app_assoc.
Qed.

(** ** Which style property the offset rules use *)

(** C10. In offset mode both conversion rules are built on one style property:
    'text-indent' when [editor.indentBlock.attribute] is truthy, otherwise
    'margin-right' for right-to-left content and 'margin-left' for
    left-to-right content. The [attribute] of the [indentBlock] configuration
    has no part in the choice. *)
Theorem marginProperty_selection (e : Editor) (c : option IndentBlockConfig) :
  conversion (_setupConversionUsingOffset e) =
    conversion e ++
    [ ForUpcast (upcastDefinition
        (if truthy (indentBlock_attribute e) then "text-indent"
         else match contentLanguageDirection e with
              | rtl => "margin-right"
              | ltr => "margin-left"
              end));
      ForDowncast (downcastDefinition
        (if truthy (indentBlock_attribute e) then "text-indent"
         else match contentLanguageDirection e with
              | rtl => "margin-right"
              | ltr => "margin-left"
              end)) ]
  ∧ marginProperty (set_config_indentBlock c e) = marginProperty e
  ∧ conversion (_setupConversionUsingOffset (set_config_indentBlock c e)) =
    conversion (_setupConversionUsingOffset e).
Proof.
  split; [| split].
  - apply setupConversionUsingOffset_registrations.
  - reflexivity.
  - reflexivity.
Qed.

(** C1, as stated, fails. With the [indentBlock] configuration's [attribute]
    at its documented value 'margin-left' and [editor.indentBlock.attribute]
    set to the same name, the registered rules work on 'text-indent': the
    downcast descriptor for "40px" is not [{ 'margin-left': '40px' }], the
    downcast element carries no 'margin-left' style, and an element styled
    with 'margin-left' is not matched by the upcast rule. *)
Lemma configured_attribute_counterexample :
  cfg_attribute <$> config_indentBlock Examples.editor_text_indent
    = Some (Some "margin-left")
  ∧ conversion (_setupConversionUsingOffset Examples.editor_text_indent)
    = [ ForUpcast (upcastDefinition "text-indent");
        ForDowncast (downcastDefinition "text-indent") ]
  ∧ down_view (downcastDefinition (marginProperty Examples.editor_text_indent)) "40px"
    ≠ {| key := "style"; value := StyleValue {[ "margin-left" := "40px" ]} |}
  ∧ getStyle (downcast (downcastDefinition (marginProperty Examples.editor_text_indent))
                ("blockIndent", "40px") (Examples.bare "p")) "margin-left" = None
  ∧ matches (up_view (upcastDefinition (marginProperty Examples.editor_text_indent)))
      (Examples.element "p" "margin-left" "40px") = false.
Proof.
  split; [reflexivity |]. split; [reflexivity |]. split; [| split].
  - intros H.
    apply (f_equal (fun d => match value d with
                             | StyleValue props => props !! "margin-left"
                             | ClassValue _ => None
                             end)) in H.
    vm_compute in H. discriminate H.
  - vm_compute. reflexivity.
  - vm_compute. reflexivity.
Qed.

(** C1, amended. For the offset strategy the upcast rule matches on, and the
    downcast rule emits, the style property selected by [marginProperty] (from
    [editor.indentBlock.attribute] and the content direction): for every model
    attribute value [v], downcast emits a [style] attribute with that property
    set to [v], and the view element then carries it. *)
Theorem downcast_emits_marginProperty (e : Editor) (v : string) (el : ViewElement) :
  ∃ up down,
    conversion (_setupConversionUsingOffset e) = conversion e ++ [ ForUpcast up; ForDowncast down ]
    ∧ (∃ re, pattern_styles (up_view up) = [ (marginProperty e, re) ])
    ∧ down_view down v =
        {| key := "style"; value := StyleValue {[ marginProperty e := v ]} |}
    ∧ getStyle (downcast down ("blockIndent", v) el) (marginProperty e) = Some v
    ∧ marginProperty e ∈ [ "text-indent"; "margin-right"; "margin-left" ].
Proof.
  exists (upcastDefinition (marginProperty e)), (downcastDefinition (marginProperty e)).
  split; [apply setupConversionUsingOffset_registrations |].
  split; [by eexists |].
  split; [reflexivity |].
  split.
  - rewrite downcast_is_setStyle. apply getStyle_setStyle.
  - unfold marginProperty.
    destruct (truthy _); [set_solver |].
    destruct (contentLanguageDirection e); set_solver.
Qed.

(** ** Round trip *)

(** C3. For every non-empty offset value [v] (every CSS length is one) and
    every view element that is not a list item: upcasting the element styled
    with [v] yields [v] and downcasting that value reproduces the styled
    element; downcasting [v] and upcasting the result yields [v] again. On a
    list item the upcast rule abstains. *)
Theorem offset_round_trip (e : Editor) (v : string) (el li : ViewElement) :
  v ≠ "" →
  is_element el "li" = false →
  is_element li "li" = true →
  upcast (upcastDefinition (marginProperty e)) (setStyle (marginProperty e) v el)
    = Some ("blockIndent", v)
  ∧ downcast (downcastDefinition (marginProperty e)) ("blockIndent", v) el
    = setStyle (marginProperty e) v el
  ∧ upcast (upcastDefinition (marginProperty e))
      (downcast (downcastDefinition (marginProperty e)) ("blockIndent", v) el)
    = Some ("blockIndent", v)
  ∧ upcast (upcastDefinition (marginProperty e)) li = None.
Proof.
  intros Hv Hel Hli.
  assert (Hup : upcast (upcastDefinition (marginProperty e))
                  (setStyle (marginProperty e) v el) = Some ("blockIndent", v)).
  { unfold upcast. rewrite matches_upcastDefinition, getStyle_setStyle.
    rewrite bool_decide_eq_false_2 by exact Hv.
    cbn [negb up_model_value up_model_key upcastDefinition].
    assert (Hn : is_element (setStyle (marginProperty e) v el) "li" = false) by exact Hel.
    rewrite Hn, getStyle_setStyle. reflexivity. }
  rewrite downcast_is_setStyle.
  repeat split; try exact Hup.
  unfold upcast. cbn [up_model_value upcastDefinition]. rewrite Hli.
  destruct (matches _ li); reflexivity.
Qed.

Lemma offset_round_trip_witness :
  "40px" ≠ ""
  ∧ is_element (Examples.bare "p") "li" = false
  ∧ is_element (Examples.bare "li") "li" = true
  ∧ (upcast (upcastDefinition (marginProperty Examples.editor_text_indent))
       (setStyle (marginProperty Examples.editor_text_indent) "40px" (Examples.bare "p"))
     = Some ("blockIndent", "40px")
     ∧ downcast (downcastDefinition (marginProperty Examples.editor_text_indent))
         ("blockIndent", "40px") (Examples.bare "p")
       = setStyle (marginProperty Examples.editor_text_indent) "40px" (Examples.bare "p")
     ∧ upcast (upcastDefinition (marginProperty Examples.editor_text_indent))
         (downcast (downcastDefinition (marginProperty Examples.editor_text_indent))
            ("blockIndent", "40px") (Examples.bare "p"))
       = Some ("blockIndent", "40px")
     ∧ upcast (upcastDefinition (marginProperty Examples.editor_text_indent))
         (Examples.bare "li") = None).
Proof.
  split; [discriminate |]. split; [reflexivity |]. split; [reflexivity |].
  apply (offset_round_trip Examples.editor_text_indent "40px"
           (Examples.bare "p") (Examples.bare "li"));
    [discriminate | reflexivity | reflexivity].
Defined.

(** ** List items and the style pattern *)

(** C4. The upcast value function yields no value for every [li] element,
    whatever its styles, so the rule leaves [blockIndent] unset there; for
    every other element matching the style pattern it yields the raw style
    string, which becomes the [blockIndent] value. *)
Theorem upcast_value_list_item (e : Editor) (li el : ViewElement) :
  is_element li "li" = true →
  is_element el "li" = false →
  matches (up_view (upcastDefinition (marginProperty e))) el = true →
  up_model_value (upcastDefinition (marginProperty e)) li = None
  ∧ upcast (upcastDefinition (marginProperty e)) li = None
  ∧ ∃ raw, getStyle el (marginProperty e) = Some raw
      ∧ up_model_value (upcastDefinition (marginProperty e)) el = Some raw
      ∧ upcast (upcastDefinition (marginProperty e)) el = Some ("blockIndent", raw).
Proof.
  intros Hli Hel Hm.
  assert (Hval : up_model_value (upcastDefinition (marginProperty e)) li = None).
  { cbn [up_model_value upcastDefinition]. by rewrite Hli. }
  split; [exact Hval |]. split.
  - unfold upcast. rewrite Hval. by destruct (matches _ li).
  - pose proof Hm as Hm'. rewrite matches_upcastDefinition in Hm'.
    destruct (getStyle el (marginProperty e)) as [raw |] eqn:Hraw; [| discriminate].
    exists raw. split; [reflexivity |].
    assert (Hv : up_model_value (upcastDefinition (marginProperty e)) el = Some raw).
    { cbn [up_model_value upcastDefinition]. by rewrite Hel. }
    split; [exact Hv |].
    unfold upcast. by rewrite Hm, Hv.
Qed.

Lemma upcast_value_list_item_witness :
  is_element (Examples.element "li" "margin-left" "40px") "li" = true
  ∧ is_element (Examples.element "p" "margin-left" "40px") "li" = false
  ∧ matches (up_view (upcastDefinition (marginProperty Examples.editor_margin)))
      (Examples.element "p" "margin-left" "40px") = true
  ∧ (up_model_value (upcastDefinition (marginProperty Examples.editor_margin))
       (Examples.element "li" "margin-left" "40px") = None
     ∧ upcast (upcastDefinition (marginProperty Examples.editor_margin))
         (Examples.element "li" "margin-left" "40px") = None
     ∧ ∃ raw, getStyle (Examples.element "p" "margin-left" "40px")
                (marginProperty Examples.editor_margin) = Some raw
         ∧ up_model_value (upcastDefinition (marginProperty Examples.editor_margin))
             (Examples.element "p" "margin-left" "40px") = Some raw
         ∧ upcast (upcastDefinition (marginProperty Examples.editor_margin))
             (Examples.element "p" "margin-left" "40px") = Some ("blockIndent", raw)).
Proof.
  split; [reflexivity |]. split; [reflexivity |]. split; [vm_compute; reflexivity |].
  apply (upcast_value_list_item Examples.editor_margin
           (Examples.element "li" "margin-left" "40px")
           (Examples.element "p" "margin-left" "40px"));
    [reflexivity | reflexivity | vm_compute; reflexivity].
Defined.

(** The spec's example: 'margin-left: 40px' on a [li] gives nothing, on a [p]
    it gives "40px". *)
Example upcast_li_and_p :
  upcast (upcastDefinition (marginProperty Examples.editor_margin))
    (Examples.element "li" "margin-left" "40px") = None
  ∧ upcast (upcastDefinition (marginProperty Examples.editor_margin))
      (Examples.element "p" "margin-left" "40px") = Some ("blockIndent", "40px").
Proof. split; vm_compute; reflexivity. Qed.

(** C7, as stated, fails: a style value made of white space only is matched
    by [/[\s\S]+/], and the element acquires [blockIndent] with that value. *)
Lemma whitespace_value_counterexample :
  all_whitespace " " = true
  ∧ matches (up_view (upcastDefinition (marginProperty Examples.editor_margin)))
      (Examples.element "p" "margin-left" " ") = true
  ∧ upcast (upcastDefinition (marginProperty Examples.editor_margin))
      (Examples.element "p" "margin-left" " ") = Some ("blockIndent", " ").
Proof. repeat split; vm_compute; reflexivity. Qed.

(** C7, amended. The upcast rule matches a view element if and only if the
    rule's style property is present with a non-empty value, white space
    included; an element on which the property is absent or empty is not
    matched, and an element acquires [blockIndent] exactly when it is matched
    and is not a list item. *)
Theorem upcast_matches_nonempty (e : Editor) (el : ViewElement) :
  (matches (up_view (upcastDefinition (marginProperty e))) el = true
   ↔ ∃ v, getStyle el (marginProperty e) = Some v ∧ v ≠ "")
  ∧ (is_Some (upcast (upcastDefinition (marginProperty e)) el)
     ↔ (∃ v, getStyle el (marginProperty e) = Some v ∧ v ≠ "")
       ∧ is_element el "li" = false).
Proof.
  assert (Hm : matches (up_view (upcastDefinition (marginProperty e))) el = true
               ↔ ∃ v, getStyle el (marginProperty e) = Some v ∧ v ≠ "").
  { rewrite matches_upcastDefinition.
    destruct (getStyle el (marginProperty e)) as [v |].
    - rewrite negb_true_iff, bool_decide_eq_false. split.
      + intros Hv. by exists v.
      + intros (w & [= <-] & Hw). exact Hw.
    - split; [discriminate |]. by intros (w & [=] & _). }
  split; [exact Hm |].
  rewrite <- Hm. unfold upcast. cbn [up_model_value up_model_key upcastDefinition].
  destruct (matches _ el) eqn:Hmatch.
  - destruct (is_element el "li") eqn:Hli; cbn [negb].
    + split; [by intros [x [=]] | by intros [_ [=]]].
    + pose proof (proj1 Hm eq_refl) as (v & Hv & _). rewrite Hv.
      split; [done | by eexists].
  - split; [by intros [x [=]] | by intros [[=] _]].
Qed.

(** ** init: choice of strategy *)

Lemma commands_add_fresh (cmdName : string) (c : Command) (e : Editor) :
  commands e !! cmdName = None →
  commands_add cmdName c e =
  Ok (mkEditor (config_indentBlock e) (config_heading_options e) (indentBlock_attribute e)
        (contentLanguageDirection e) (conversion e) (styleProcessorRules e)
        (objects e ++ [ c ]) (<[cmdName := length (objects e)]> (commands e)) (schema e)).
Proof. intros H. unfold commands_add. by rewrite H. Qed.

Lemma classes_condition_true (cfg : IndentBlockConfig) :
  classes_condition cfg = true ↔ ∃ classes, cfg_classes cfg = Some classes ∧ classes ≠ [].
Proof.
  unfold classes_condition. destruct (cfg_classes cfg) as [[| c cs] |]; simpl.
  - split; [discriminate | by intros (? & [= <-] & ?)].
  - split; [by eexists | done].
  - split; [discriminate | by intros (? & [=] & _)].
Qed.

Lemma init_using_classes (e : Editor) (cfg : IndentBlockConfig) (classes : list string) :
  config_indentBlock e = Some cfg →
  cfg_classes cfg = Some classes →
  classes ≠ [] →
  commands e !! "indentBlock" = None →
  commands e !! "outdentBlock" = None →
  init e =
  Ok (mkEditor (config_indentBlock e) (config_heading_options e) (indentBlock_attribute e)
        (contentLanguageDirection e)
        (conversion e ++ [ TwoWay (classesDefinition classes) ])
        (styleProcessorRules e)
        (objects e ++ [ IndentBlockCommand (IndentUsingClasses forward classes);
                        IndentBlockCommand (IndentUsingClasses backward classes) ])
        (<["outdentBlock" := S (length (objects e))]>
           (<["indentBlock" := length (objects e)]> (commands e)))
        (schema e)).
Proof.
  intros Hcfg Hcls Hne Hi Ho. unfold init. rewrite Hcfg.
  assert (Hc : classes_condition cfg = true) by (apply classes_condition_true; eauto).
  rewrite Hc, Hcls. cbn [default].
  unfold _setupConversionUsingClasses, register.
  rewrite commands_add_fresh by exact Hi.
  unfold mbind, Result_bind.
  rewrite commands_add_fresh
    by (cbn [commands]; rewrite lookup_insert_ne by discriminate; exact Ho).
  cbn [objects commands conversion styleProcessorRules config_indentBlock
       config_heading_options indentBlock_attribute contentLanguageDirection schema].
  rewrite <- app_assoc, length_app. cbn [length app].
  rewrite Nat.add_1_r, ?Hcfg. reflexivity.
Qed.

Lemma init_using_offset (e : Editor) (cfg : IndentBlockConfig) :
  config_indentBlock e = Some cfg →
  classes_condition cfg = false →
  commands e !! "indentBlock" = None →
  commands e !! "outdentBlock" = None →
  init e =
  Ok (mkEditor (config_indentBlock e) (config_heading_options e) (indentBlock_attribute e)
        (contentLanguageDirection e)
        (conversion e ++ [ ForUpcast (upcastDefinition (marginProperty e));
                           ForDowncast (downcastDefinition (marginProperty e)) ])
        (styleProcessorRules e ++ [ addMarginRules ])
        (objects e ++
           [ IndentBlockCommand (IndentUsingOffset forward (cfg_attribute cfg)
                                   (cfg_offset cfg) (cfg_unit cfg));
             IndentBlockCommand (IndentUsingOffset backward (cfg_attribute cfg)
                                   (cfg_offset cfg) (cfg_unit cfg)) ])
        (<["outdentBlock" := S (length (objects e))]>
           (<["indentBlock" := length (objects e)]> (commands e)))
        (schema e)).
Proof.
  intros Hcfg Hc Hi Ho. unfold init. rewrite Hcfg, Hc.
  unfold _setupConversionUsingOffset, register, addStyleProcessorRules.
  rewrite commands_add_fresh by exact Hi.
  unfold mbind, Result_bind.
  rewrite commands_add_fresh
    by (cbn [commands]; rewrite lookup_insert_ne by discriminate; exact Ho).
  cbn [objects commands conversion styleProcessorRules config_indentBlock
       config_heading_options indentBlock_attribute contentLanguageDirection schema].
  rewrite <- !app_assoc, length_app. cbn [length app].
  rewrite Nat.add_1_r, ?Hcfg. reflexivity.
Qed.

Lemma commands_get_registered (e : Editor) (cmdName : string) (r : nat) (c : Command) :
  commands e !! cmdName = Some r →
  objects e !! r = Some c →
  commands_get cmdName e = Some c.
Proof. intros Hr Hc. unfold commands_get. rewrite Hr. exact Hc. Qed.

Lemma classesDefinition_view_class (classes : list string) :
  map_Forall (fun _ d => key d = "class") (tw_view (classesDefinition classes)).
Proof.
  unfold classesDefinition.
  assert (H : ∀ d0, map_Forall (fun _ d => key d = "class") (tw_view d0) →
    map_Forall (fun _ d => key d = "class")
      (tw_view (fold_left
        (fun definition className =>
           {| tw_model_key := tw_model_key definition;
              tw_model_values := tw_model_values definition ++ [ className ];
              tw_view := <[ className := {| key := "class"; value := ClassValue [ className ] |} ]>
                           (tw_view definition) |}) classes d0))).
  { induction classes as [| c cs IH]; intros d0 Hd0; [exact Hd0 |].
    cbn [fold_left]. apply IH. cbn [tw_view].
    by apply map_Forall_insert_2. }
  apply H. cbn [tw_view]. apply map_Forall_empty.
Qed.

Lemma commands_get_after_init (c : option IndentBlockConfig) (h : option (list HeadingOption))
    (a : option string) (d : LanguageDirection) (regs : list Registration)
    (rules : list StyleProcessorRules) (objs : list Command) (cmds : gmap string nat)
    (s : Schema.Schema) (c1 c2 : Command) :
  commands_get "indentBlock"
    (mkEditor c h a d regs rules (objs ++ [ c1; c2 ])
       (<["outdentBlock" := S (length objs)]> (<["indentBlock" := length objs]> cmds)) s)
    = Some c1
  ∧ commands_get "outdentBlock"
      (mkEditor c h a d regs rules (objs ++ [ c1; c2 ])
         (<["outdentBlock" := S (length objs)]> (<["indentBlock" := length objs]> cmds)) s)
    = Some c2.
Proof.
  unfold commands_get; cbn [commands objects]. split.
  - rewrite lookup_insert_ne by discriminate. rewrite lookup_insert_eq.
    cbn [mbind option_bind]. by apply list_lookup_middle.
  - rewrite lookup_insert_eq. cbn [mbind option_bind].
    rewrite lookup_app_r by lia.
    replace (S (length objs) - length objs)%nat with 1%nat by lia. reflexivity.
Qed.

(** C2. With a non-empty [classes] list in the [indentBlock] configuration,
    [init] registers the class-based two-way conversion only (every view
    descriptor has key 'class', no style processor rules are added) and the
    two commands it creates use [IndentUsingClasses]; the configured
    [attribute], [offset] and [unit] do not influence anything [init] does. *)
Theorem init_classes_only (e : Editor) (cfg : IndentBlockConfig) (classes : list string) :
  config_indentBlock e = Some cfg →
  cfg_classes cfg = Some classes →
  classes ≠ [] →
  commands e !! "indentBlock" = None →
  commands e !! "outdentBlock" = None →
  ∃ e',
    init e = Ok e'
    ∧ conversion e' = conversion e ++ [ TwoWay (classesDefinition classes) ]
    ∧ map_Forall (fun _ d => key d = "class") (tw_view (classesDefinition classes))
    ∧ styleProcessorRules e' = styleProcessorRules e
    ∧ objects e' = objects e ++ [ IndentBlockCommand (IndentUsingClasses forward classes);
                                  IndentBlockCommand (IndentUsingClasses backward classes) ]
    ∧ commands e' = <["outdentBlock" := S (length (objects e))]>
                      (<["indentBlock" := length (objects e)]> (commands e))
    ∧ commands_get "indentBlock" e'
      = Some (IndentBlockCommand (IndentUsingClasses forward classes))
    ∧ commands_get "outdentBlock" e'
      = Some (IndentBlockCommand (IndentUsingClasses backward classes))
    ∧ ∀ a o u,
        init (set_config_indentBlock (Some (mkConfig a o u (Some classes))) e)
        = Ok (set_config_indentBlock (Some (mkConfig a o u (Some classes))) e').
Proof.
  intros Hcfg Hcls Hne Hi Ho.
  eexists. split; [exact (init_using_classes e cfg classes Hcfg Hcls Hne Hi Ho) |].
  split; [reflexivity |].
  split; [apply classesDefinition_view_class |].
  split; [reflexivity |]. split; [reflexivity |]. split; [reflexivity |].
  split; [apply commands_get_after_init |].
  split; [apply commands_get_after_init |].
  intros a o u.
  rewrite (init_using_classes (set_config_indentBlock (Some (mkConfig a o u (Some classes))) e)
             (mkConfig a o u (Some classes)) classes eq_refl eq_refl Hne Hi Ho).
  reflexivity.
Qed.

Lemma init_classes_only_witness :
  config_indentBlock Examples.editor_classes = Some Examples.classes_config
  ∧ cfg_classes Examples.classes_config = Some [ "indent-a"; "indent-b" ]
  ∧ [ "indent-a"; "indent-b" ] ≠ []
  ∧ commands Examples.editor_classes !! "indentBlock" = None
  ∧ commands Examples.editor_classes !! "outdentBlock" = None
  ∧ ∃ e',
      init Examples.editor_classes = Ok e'
      ∧ conversion e' = conversion Examples.editor_classes
                        ++ [ TwoWay (classesDefinition [ "indent-a"; "indent-b" ]) ]
      ∧ map_Forall (fun _ d => key d = "class")
          (tw_view (classesDefinition [ "indent-a"; "indent-b" ]))
      ∧ styleProcessorRules e' = styleProcessorRules Examples.editor_classes
      ∧ objects e' = objects Examples.editor_classes
                     ++ [ IndentBlockCommand
                            (IndentUsingClasses forward [ "indent-a"; "indent-b" ]);
                          IndentBlockCommand
                            (IndentUsingClasses backward [ "indent-a"; "indent-b" ]) ]
      ∧ commands e' = <["outdentBlock" := S (length (objects Examples.editor_classes))]>
                        (<["indentBlock" := length (objects Examples.editor_classes)]>
                           (commands Examples.editor_classes))
      ∧ commands_get "indentBlock" e'
        = Some (IndentBlockCommand (IndentUsingClasses forward [ "indent-a"; "indent-b" ]))
      ∧ commands_get "outdentBlock" e'
        = Some (IndentBlockCommand (IndentUsingClasses backward [ "indent-a"; "indent-b" ]))
      ∧ ∀ a o u,
          init (set_config_indentBlock
                  (Some (mkConfig a o u (Some [ "indent-a"; "indent-b" ])))
                  Examples.editor_classes)
          = Ok (set_config_indentBlock
                  (Some (mkConfig a o u (Some [ "indent-a"; "indent-b" ]))) e').
Proof.
  split; [reflexivity |]. split; [reflexivity |]. split; [discriminate |].
  split; [vm_compute; reflexivity |]. split; [vm_compute; reflexivity |].
  apply (init_classes_only Examples.editor_classes Examples.classes_config
           [ "indent-a"; "indent-b" ]);
    [reflexivity | reflexivity | discriminate
     | vm_compute; reflexivity | vm_compute; reflexivity].
Defined.

(** C8, as stated, fails: with [classes] defined as the empty list, [init]
    sets up the offset strategy (style rules, margin style processor rules,
    offset commands). *)
Lemma empty_classes_counterexample :
  cfg_classes <$> config_indentBlock Examples.editor_empty_classes = Some (Some [])
  ∧ ∃ e',
      init Examples.editor_empty_classes = Ok e'
      ∧ conversion e' = [ ForUpcast (upcastDefinition "margin-left");
                          ForDowncast (downcastDefinition "margin-left") ]
      ∧ styleProcessorRules e' = [ addMarginRules ]
      ∧ commands_get "indentBlock" e'
        = Some (IndentBlockCommand
                  (IndentUsingOffset forward (Some "margin-left") (Some 40%Z) (Some "px")))
      ∧ commands_get "outdentBlock" e'
        = Some (IndentBlockCommand
                  (IndentUsingOffset backward (Some "margin-left") (Some 40%Z) (Some "px"))).
Proof.
  split; [reflexivity |].
  eexists. split.
  - apply (init_using_offset Examples.editor_empty_classes Examples.empty_classes_config);
      [reflexivity | reflexivity | vm_compute; reflexivity | vm_compute; reflexivity].
  - split; [reflexivity |]. split; [reflexivity |].
    split; apply commands_get_after_init.
Qed.

(** C8, amended. [init] sets up the class-based conversion and commands
    exactly when [classes] is defined and non-empty; when [classes] is absent
    or the empty list it sets up the offset strategy. *)
Theorem init_strategy_by_classes (e : Editor) (cfg : IndentBlockConfig) :
  config_indentBlock e = Some cfg →
  commands e !! "indentBlock" = None →
  commands e !! "outdentBlock" = None →
  ∃ e',
    init e = Ok e'
    ∧ match cfg_classes cfg with
      | Some (c :: cs) =>
          conversion e' = conversion e ++ [ TwoWay (classesDefinition (c :: cs)) ]
          ∧ styleProcessorRules e' = styleProcessorRules e
          ∧ is_classes_command <$> commands_get "indentBlock" e' = Some true
          ∧ is_classes_command <$> commands_get "outdentBlock" e' = Some true
      | _ =>
          conversion e' = conversion e
                          ++ [ ForUpcast (upcastDefinition (marginProperty e));
                               ForDowncast (downcastDefinition (marginProperty e)) ]
          ∧ styleProcessorRules e' = styleProcessorRules e ++ [ addMarginRules ]
          ∧ is_offset_command <$> commands_get "indentBlock" e' = Some true
          ∧ is_offset_command <$> commands_get "outdentBlock" e' = Some true
      end.
Proof.
  intros Hcfg Hi Ho.
  destruct (cfg_classes cfg) as [[| c cs] |] eqn:Hcls.
  - eexists. split.
    + apply (init_using_offset e cfg Hcfg); [| exact Hi | exact Ho].
      unfold classes_condition. by rewrite Hcls.
    + split; [reflexivity |]. split; [reflexivity |].
      split; [rewrite (proj1 (commands_get_after_init _ _ _ _ _ _ _ _ _ _ _))
             | rewrite (proj2 (commands_get_after_init _ _ _ _ _ _ _ _ _ _ _))];
        reflexivity.
  - eexists. split.
    + apply (init_using_classes e cfg (c :: cs) Hcfg Hcls); [discriminate | exact Hi | exact Ho].
    + split; [reflexivity |]. split; [reflexivity |].
      split; [rewrite (proj1 (commands_get_after_init _ _ _ _ _ _ _ _ _ _ _))
             | rewrite (proj2 (commands_get_after_init _ _ _ _ _ _ _ _ _ _ _))];
        reflexivity.
  - eexists. split.
    + apply (init_using_offset e cfg Hcfg); [| exact Hi | exact Ho].
      unfold classes_condition. by rewrite Hcls.
    + split; [reflexivity |]. split; [reflexivity |].
      split; [rewrite (proj1 (commands_get_after_init _ _ _ _ _ _ _ _ _ _ _))
             | rewrite (proj2 (commands_get_after_init _ _ _ _ _ _ _ _ _ _ _))];
        reflexivity.
Qed.

Lemma init_strategy_by_classes_witness :
  config_indentBlock Examples.editor_classes = Some Examples.classes_config
  ∧ commands Examples.editor_classes !! "indentBlock" = None
  ∧ commands Examples.editor_classes !! "outdentBlock" = None
  ∧ ∃ e',
      init Examples.editor_classes = Ok e'
      ∧ match cfg_classes Examples.classes_config with
        | Some (c :: cs) =>
            conversion e' = conversion Examples.editor_classes
                            ++ [ TwoWay (classesDefinition (c :: cs)) ]
            ∧ styleProcessorRules e' = styleProcessorRules Examples.editor_classes
            ∧ is_classes_command <$> commands_get "indentBlock" e' = Some true
            ∧ is_classes_command <$> commands_get "outdentBlock" e' = Some true
        | _ =>
            conversion e' = conversion Examples.editor_classes
                            ++ [ ForUpcast (upcastDefinition
                                              (marginProperty Examples.editor_classes));
                                 ForDowncast (downcastDefinition
                                                (marginProperty Examples.editor_classes)) ]
            ∧ styleProcessorRules e' = styleProcessorRules Examples.editor_classes
                                       ++ [ addMarginRules ]
            ∧ is_offset_command <$> commands_get "indentBlock" e' = Some true
            ∧ is_offset_command <$> commands_get "outdentBlock" e' = Some true
        end.
Proof.
  split; [reflexivity |].
  split; [vm_compute; reflexivity |]. split; [vm_compute; reflexivity |].
  apply (init_strategy_by_classes Examples.editor_classes Examples.classes_config);
    [reflexivity | vm_compute; reflexivity | vm_compute; reflexivity].
Defined.

(** ** afterInit: the schema *)

Lemma isRegistered_true (s : Schema.Schema) (n : string) :
  Schema.isRegistered s n = true ↔ ∃ allowed, Schema.definitions s !! n = Some allowed.
Proof. unfold Schema.isRegistered. rewrite bool_decide_eq_true. reflexivity. Qed.

Lemma isRegistered_false (s : Schema.Schema) (n : string) :
  Schema.isRegistered s n = false ↔ Schema.definitions s !! n = None.
Proof.
  unfold Schema.isRegistered. rewrite bool_decide_eq_false.
  rewrite <- eq_None_not_Some. reflexivity.
Qed.

Lemma extend_calls_app (s : Schema.Schema) (c : Schema.Call) (ds : gmap string (list string))
    (ps : gmap string (gmap string bool)) :
  Schema.extend_calls (Schema.mkSchema ds ps (Schema.calls s ++ [ c ])) =
  Schema.extend_calls s ++
  match c with
  | Schema.CallExtend n _ => [ n ]
  | Schema.CallSetAttributeProperties _ _ => []
  end.
Proof.
  unfold Schema.extend_calls; cbn [Schema.calls].
  rewrite omap_app. by destruct c.
Qed.

(** The loop never throws; it extends exactly the registered names, in
    order, leaves every other item and all attribute properties alone, and
    only ever adds allowed attributes. *)
Lemma extendKnownElements_spec (names : list string) (s : Schema.Schema) :
  ∃ s',
    extendKnownElements names s = Ok s'
    ∧ (∀ n, Schema.isRegistered s' n = Schema.isRegistered s n)
    ∧ Schema.attributeProperties s' = Schema.attributeProperties s
    ∧ Schema.extend_calls s' =
        Schema.extend_calls s ++ filter (fun n => Schema.isRegistered s n = true) names
    ∧ (∀ n a, Schema.checkAttribute s n a = true → Schema.checkAttribute s' n a = true)
    ∧ (∀ n, n ∈ names → Schema.isRegistered s n = true →
            Schema.checkAttribute s' n "blockIndent" = true).
Proof.
  revert s. induction names as [| a names IH]; intros s.
  - exists s. cbn [extendKnownElements]. rewrite filter_nil, app_nil_r.
    repeat split; try done. intros n Hn. by apply elem_of_nil in Hn.
  - cbn [extendKnownElements].
    destruct (Schema.isRegistered s a) eqn:Hreg.
    + apply isRegistered_true in Hreg as Hdef. destruct Hdef as [allowed Hdef].
      unfold Schema.extend. rewrite Hdef. cbn [mbind Result_bind].
      set (s1 := Schema.mkSchema _ _ _).
      assert (Hreg1 : ∀ n, Schema.isRegistered s1 n = Schema.isRegistered s n).
      { intros n. unfold Schema.isRegistered, s1; cbn [Schema.definitions].
        destruct (decide (a = n)) as [<- | Hne].
        - rewrite lookup_insert_eq, Hdef.
          rewrite !bool_decide_eq_true_2 by by eexists. reflexivity.
        - by rewrite lookup_insert_ne. }
      assert (Hmono : ∀ n b, Schema.checkAttribute s n b = true →
                             Schema.checkAttribute s1 n b = true).
      { intros n b. unfold Schema.checkAttribute, s1; cbn [Schema.definitions].
        destruct (decide (a = n)) as [<- | Hne].
        - rewrite lookup_insert_eq, Hdef. rewrite !bool_decide_eq_true.
          intros Hb. apply elem_of_app. by left.
        - by rewrite lookup_insert_ne. }
      assert (Ha : Schema.checkAttribute s1 a "blockIndent" = true).
      { unfold Schema.checkAttribute, s1; cbn [Schema.definitions].
        rewrite lookup_insert_eq, bool_decide_eq_true. set_solver. }
      destruct (IH s1) as (s' & Hrun & Hr & Hp & Hc & Hm & Hk).
      exists s'. split; [exact Hrun |].
      split; [intros n; by rewrite Hr |].
      split; [by rewrite Hp |].
      split.
      { rewrite Hc. unfold s1. rewrite extend_calls_app.
        rewrite filter_cons_True by exact Hreg. rewrite <- app_assoc. cbn [app].
        do 2 f_equal. apply list_filter_iff. intros n. by rewrite Hreg1. }
      split; [intros n b Hb; by apply Hm, Hmono |].
      intros n Hn Hnreg. apply elem_of_cons in Hn as [-> | Hn].
      * by apply Hm.
      * apply Hk; [exact Hn | by rewrite Hreg1].
    + destruct (IH s) as (s' & Hrun & Hr & Hp & Hc & Hm & Hk).
      exists s'. split; [exact Hrun |].
      split; [exact Hr |]. split; [exact Hp |].
      split; [rewrite filter_cons_False by (by rewrite Hreg); exact Hc |].
      split; [exact Hm |].
      intros n Hn Hnreg. apply elem_of_cons in Hn as [-> | Hn]; [congruence |].
      by apply Hk.
Qed.

Lemma registerChildCommand_schema (p c : option nat) (e e' : Editor) :
  registerChildCommand p c e = Ok e' → schema e' = schema e ∧ commands e' = commands e.
Proof.
  unfold registerChildCommand.
  destruct p as [p |]; [| discriminate].
  destruct (objects e !! p) as [[b | children | l] |]; try discriminate.
  destruct c as [c |]; [| discriminate].
  intros [= <-]. by split.
Qed.

Lemma afterInit_schema (e e' : Editor) :
  afterInit e = Ok e' →
  ∃ s', extendKnownElements (knownElements e) (schema e) = Ok s'
        ∧ schema e' = Schema.setAttributeProperties "blockIndent" {[ "isFormatting" := true ]} s'.
Proof.
  unfold afterInit.
  destruct (extendKnownElements (knownElements e) (schema e)) as [s' | err]; [| discriminate].
  cbn [mbind Result_bind].
  destruct (registerChildCommand (commands e !! "indent") _ _) as [e1 | err] eqn:H1;
    [| discriminate].
  intros H2. exists s'. split; [reflexivity |].
  apply registerChildCommand_schema in H1 as [Hs1 _].
  apply registerChildCommand_schema in H2 as [Hs2 _].
  by rewrite Hs2, Hs1.
Qed.

(** C6. In [afterInit], a name whose schema item is not registered is left
    alone: the loop makes no [extend] call for it (the calls made are exactly
    those for the registered known elements), it stays unregistered and
    'blockIndent' is not allowed on it, while every registered known element
    gets 'blockIndent' allowed. The loop itself never throws. *)
Theorem afterInit_skips_unregistered (e : Editor) (elementName : string) :
  Schema.isRegistered (schema e) elementName = false →
  ∃ s' made,
    extendKnownElements (knownElements e) (schema e) = Ok s'
    ∧ Schema.extend_calls s' = Schema.extend_calls (schema e) ++ made
    ∧ (elementName ∉ made)
    ∧ (∀ n, n ∈ made ↔ n ∈ knownElements e ∧ Schema.isRegistered (schema e) n = true)
    ∧ ∀ e', afterInit e = Ok e' →
        Schema.extend_calls (schema e') = Schema.extend_calls (schema e) ++ made
        ∧ Schema.definitions (schema e') !! elementName = None
        ∧ Schema.isRegistered (schema e') elementName = false
        ∧ Schema.checkAttribute (schema e') elementName "blockIndent" = false
        ∧ ∀ n, n ∈ knownElements e → Schema.isRegistered (schema e) n = true →
               Schema.checkAttribute (schema e') n "blockIndent" = true.
Proof.
  intros Hunreg.
  destruct (extendKnownElements_spec (knownElements e) (schema e))
    as (s' & Hrun & Hr & Hp & Hc & Hm & Hk).
  exists s', (filter (fun n => Schema.isRegistered (schema e) n = true) (knownElements e)).
  split; [exact Hrun |]. split; [exact Hc |].
  split; [rewrite list_elem_of_filter; intros [Hx _]; congruence |].
  split; [intros n; rewrite list_elem_of_filter; tauto |].
  intros e' Hafter.
  apply afterInit_schema in Hafter as (s'' & Hrun' & Hs).
  rewrite Hrun in Hrun'. injection Hrun' as <-.
  assert (Hnone : Schema.definitions s' !! elementName = None).
  { apply isRegistered_false. by rewrite Hr. }
  rewrite Hs. unfold Schema.setAttributeProperties.
  split; [rewrite extend_calls_app, app_nil_r; exact Hc |].
  split; [exact Hnone |].
  split; [apply isRegistered_false; exact Hnone |].
  split; [unfold Schema.checkAttribute; cbn [Schema.definitions]; by rewrite Hnone |].
  intros n Hn Hreg. apply (Hk n Hn Hreg).
Qed.

Lemma afterInit_skips_unregistered_witness :
  Schema.isRegistered (schema Examples.editor_text_indent) "heading2" = false
  ∧ ∃ s' made,
      extendKnownElements (knownElements Examples.editor_text_indent)
        (schema Examples.editor_text_indent) = Ok s'
      ∧ Schema.extend_calls s'
        = Schema.extend_calls (schema Examples.editor_text_indent) ++ made
      ∧ ("heading2" ∉ made)
      ∧ (∀ n, n ∈ made ↔ n ∈ knownElements Examples.editor_text_indent
                         ∧ Schema.isRegistered (schema Examples.editor_text_indent) n = true)
      ∧ ∀ e', afterInit Examples.editor_text_indent = Ok e' →
          Schema.extend_calls (schema e')
          = Schema.extend_calls (schema Examples.editor_text_indent) ++ made
          ∧ Schema.definitions (schema e') !! "heading2" = None
          ∧ Schema.isRegistered (schema e') "heading2" = false
          ∧ Schema.checkAttribute (schema e') "heading2" "blockIndent" = false
          ∧ ∀ n, n ∈ knownElements Examples.editor_text_indent →
                 Schema.isRegistered (schema Examples.editor_text_indent) n = true →
                 Schema.checkAttribute (schema e') n "blockIndent" = true.
Proof.
  split; [vm_compute; reflexivity |].
  apply (afterInit_skips_unregistered Examples.editor_text_indent "heading2").
  vm_compute; reflexivity.
Defined.

(** On the example editor the loop extends 'paragraph' and 'heading1', the
    two registered names, and nothing else. *)
Example extendKnownElements_example :
  Schema.extend_calls <$>
    (match extendKnownElements (knownElements Examples.editor_text_indent)
             (schema Examples.editor_text_indent) with
     | Ok s' => Some s'
     | Throw _ => None
     end) = Some [ "paragraph"; "heading1" ].
Proof. vm_compute. reflexivity. Qed.

(** ** afterInit: linking the commands *)

Lemma registerChildCommand_ok (e : Editor) (p c : nat) (children : list nat) :
  objects e !! p = Some (MultiCommand children) →
  registerChildCommand (Some p) (Some c) e =
  Ok (mkEditor (config_indentBlock e) (config_heading_options e) (indentBlock_attribute e)
        (contentLanguageDirection e) (conversion e) (styleProcessorRules e)
        (<[p := MultiCommand (children ++ [ c ])]> (objects e)) (commands e) (schema e)).
Proof. intros H. unfold registerChildCommand. by rewrite H. Qed.

Lemma afterInit_ok (e : Editor) (i o ib ob : nat) (ci co : list nat) :
  commands e !! "indent" = Some i →
  objects e !! i = Some (MultiCommand ci) →
  commands e !! "outdent" = Some o →
  objects e !! o = Some (MultiCommand co) →
  commands e !! "indentBlock" = Some ib →
  commands e !! "outdentBlock" = Some ob →
  ∃ s' e',
    extendKnownElements (knownElements e) (schema e) = Ok s'
    ∧ afterInit e = Ok e'
    ∧ commands e' = commands e
    ∧ schema e' = Schema.setAttributeProperties "blockIndent" {[ "isFormatting" := true ]} s'
    ∧ objects e' =
        <[o := MultiCommand ((if decide (o = i) then ci ++ [ ib ] else co) ++ [ ob ])]>
          (<[i := MultiCommand (ci ++ [ ib ])]> (objects e)).
Proof.
  intros Hi Hoi Ho Hoo Hib Hob.
  destruct (extendKnownElements_spec (knownElements e) (schema e)) as (s' & Hrun & _).
  pose proof (lookup_lt_Some _ _ _ Hoi) as Hlt.
  assert (Hstep : afterInit e =
    registerChildCommand (Some o) (Some ob)
      (mkEditor (config_indentBlock e) (config_heading_options e) (indentBlock_attribute e)
         (contentLanguageDirection e) (conversion e) (styleProcessorRules e)
         (<[i := MultiCommand (ci ++ [ ib ])]> (objects e)) (commands e)
         (Schema.setAttributeProperties "blockIndent" {[ "isFormatting" := true ]} s'))).
  { unfold afterInit. rewrite Hrun, Hi, Ho. cbn [mbind Result_bind].
    unfold set_schema. cbn [commands]. rewrite Hib.
    rewrite (registerChildCommand_ok _ i ib ci) by exact Hoi.
    cbn [mbind Result_bind commands objects config_indentBlock config_heading_options
         indentBlock_attribute contentLanguageDirection conversion styleProcessorRules schema].
    by rewrite Hob. }
  destruct (decide (o = i)) as [-> | Hne]; exists s'; eexists;
    (split; [exact Hrun |]); split.
  - rewrite Hstep.
    apply (registerChildCommand_ok _ i ob (ci ++ [ ib ])).
    cbn [objects]. by apply list_lookup_insert_eq.
  - by repeat split.
  - rewrite Hstep.
    apply (registerChildCommand_ok _ o ob co).
    cbn [objects]. by rewrite list_lookup_insert_ne.
  - by repeat split.
Qed.

Lemma init_commands (e : Editor) (cfg : IndentBlockConfig) :
  config_indentBlock e = Some cfg →
  commands e !! "indentBlock" = None →
  commands e !! "outdentBlock" = None →
  ∃ e1 bi bo,
    init e = Ok e1
    ∧ objects e1 = objects e ++ [ IndentBlockCommand bi; IndentBlockCommand bo ]
    ∧ commands e1 = <["outdentBlock" := S (length (objects e))]>
                      (<["indentBlock" := length (objects e)]> (commands e)).
Proof.
  intros Hcfg Hi Ho.
  destruct (classes_condition cfg) eqn:Hc.
  - apply classes_condition_true in Hc as (classes & Hcls & Hne).
    eexists _, _, _. split; [exact (init_using_classes e cfg classes Hcfg Hcls Hne Hi Ho) |].
    by split.
  - eexists _, _, _. split; [exact (init_using_offset e cfg Hcfg Hc Hi Ho) |].
    by split.
Qed.

Lemma isFormatting_set (s : Schema.Schema) :
  Schema.getAttributeProperties
    (Schema.setAttributeProperties "blockIndent" {[ "isFormatting" := true ]} s)
    "blockIndent" !! "isFormatting" = Some true.
Proof.
  unfold Schema.getAttributeProperties at 1, Schema.setAttributeProperties.
  cbn [Schema.attributeProperties]. rewrite lookup_insert_eq. cbn [default].
  apply lookup_union_Some_l, lookup_singleton_eq.
Qed.

(** C9. When the 'indent' and 'outdent' multi-commands are registered and
    [init] has registered 'indentBlock' and 'outdentBlock', [afterInit] runs to
    completion; afterwards the very command object registered as 'indentBlock'
    is among the children of 'indent', the one registered as 'outdentBlock' is
    among the children of 'outdent', and the properties of the schema
    attribute 'blockIndent' hold isFormatting = true. *)
Theorem afterInit_links_commands (e : Editor) (cfg : IndentBlockConfig)
    (i o : nat) (ci co : list nat) :
  config_indentBlock e = Some cfg →
  commands e !! "indent" = Some i →
  objects e !! i = Some (MultiCommand ci) →
  commands e !! "outdent" = Some o →
  objects e !! o = Some (MultiCommand co) →
  commands e !! "indentBlock" = None →
  commands e !! "outdentBlock" = None →
  ∃ e1 e2 ib ob bi bo,
    init e = Ok e1
    ∧ afterInit e1 = Ok e2
    ∧ commands e1 !! "indentBlock" = Some ib
    ∧ objects e1 !! ib = Some (IndentBlockCommand bi)
    ∧ commands e1 !! "outdentBlock" = Some ob
    ∧ objects e1 !! ob = Some (IndentBlockCommand bo)
    ∧ commands e2 = commands e1
    ∧ objects e2 !! ib = Some (IndentBlockCommand bi)
    ∧ objects e2 !! ob = Some (IndentBlockCommand bo)
    ∧ (∃ children, objects e2 !! i = Some (MultiCommand children) ∧ ib ∈ children)
    ∧ (∃ children, objects e2 !! o = Some (MultiCommand children) ∧ ob ∈ children)
    ∧ Schema.getAttributeProperties (schema e2) "blockIndent" !! "isFormatting" = Some true.
Proof.
  intros Hcfg Hi Hoi Ho Hoo Hib Hob.
  destruct (init_commands e cfg Hcfg Hib Hob) as (e1 & bi & bo & Hinit & Hobjs & Hcmds).
  pose proof (lookup_lt_Some _ _ _ Hoi) as Hlti.
  pose proof (lookup_lt_Some _ _ _ Hoo) as Hlto.
  set (n := length (objects e)) in *.
  assert (H1i : commands e1 !! "indent" = Some i)
    by (rewrite Hcmds, !lookup_insert_ne by discriminate; exact Hi).
  assert (H1o : commands e1 !! "outdent" = Some o)
    by (rewrite Hcmds, !lookup_insert_ne by discriminate; exact Ho).
  assert (H1ib : commands e1 !! "indentBlock" = Some n)
    by (rewrite Hcmds, lookup_insert_ne by discriminate; apply lookup_insert_eq).
  assert (H1ob : commands e1 !! "outdentBlock" = Some (S n))
    by (rewrite Hcmds; apply lookup_insert_eq).
  assert (H1oi : objects e1 !! i = Some (MultiCommand ci))
    by (rewrite Hobjs, lookup_app_l by exact Hlti; exact Hoi).
  assert (H1oo : objects e1 !! o = Some (MultiCommand co))
    by (rewrite Hobjs, lookup_app_l by exact Hlto; exact Hoo).
  assert (H1n : objects e1 !! n = Some (IndentBlockCommand bi))
    by (rewrite Hobjs; by apply list_lookup_middle).
  assert (H1sn : objects e1 !! S n = Some (IndentBlockCommand bo)).
  { rewrite Hobjs, lookup_app_r by (unfold n; lia).
    replace (S n - length (objects e))%nat with 1%nat by (unfold n; lia). reflexivity. }
  destruct (afterInit_ok e1 i o n (S n) ci co H1i H1oi H1o H1oo H1ib H1ob)
    as (s' & e2 & _ & Hafter & Hc2 & Hs2 & Ho2).
  assert (Hlen1 : (i < length (objects e1))%nat) by (by eapply lookup_lt_Some).
  assert (Hlen2 : (o < length (objects e1))%nat) by (by eapply lookup_lt_Some).
  exists e1, e2, n, (S n), bi, bo.
  split; [exact Hinit |]. split; [exact Hafter |].
  split; [exact H1ib |]. split; [exact H1n |].
  split; [exact H1ob |]. split; [exact H1sn |].
  split; [exact Hc2 |].
  split; [rewrite Ho2, !list_lookup_insert_ne by lia; exact H1n |].
  split; [rewrite Ho2, !list_lookup_insert_ne by lia; exact H1sn |].
  split; [| split].
  - rewrite Ho2. destruct (decide (o = i)) as [-> | Hne].
    + eexists. split; [apply list_lookup_insert_eq; by rewrite length_insert |].
      set_solver.
    + eexists. split.
      * rewrite list_lookup_insert_ne by exact Hne. by apply list_lookup_insert_eq.
      * set_solver.
  - rewrite Ho2. eexists.
    split; [apply list_lookup_insert_eq; by rewrite length_insert |].
    set_solver.
  - rewrite Hs2. apply isFormatting_set.
Qed.

Lemma afterInit_links_commands_witness :
  config_indentBlock Examples.editor_text_indent = Some Examples.offset_config
  ∧ commands Examples.editor_text_indent !! "indent" = Some 0%nat
  ∧ objects Examples.editor_text_indent !! 0%nat = Some (MultiCommand [])
  ∧ commands Examples.editor_text_indent !! "outdent" = Some 1%nat
  ∧ objects Examples.editor_text_indent !! 1%nat = Some (MultiCommand [])
  ∧ commands Examples.editor_text_indent !! "indentBlock" = None
  ∧ commands Examples.editor_text_indent !! "outdentBlock" = None
  ∧ ∃ e1 e2 ib ob bi bo,
      init Examples.editor_text_indent = Ok e1
      ∧ afterInit e1 = Ok e2
      ∧ commands e1 !! "indentBlock" = Some ib
      ∧ objects e1 !! ib = Some (IndentBlockCommand bi)
      ∧ commands e1 !! "outdentBlock" = Some ob
      ∧ objects e1 !! ob = Some (IndentBlockCommand bo)
      ∧ commands e2 = commands e1
      ∧ objects e2 !! ib = Some (IndentBlockCommand bi)
      ∧ objects e2 !! ob = Some (IndentBlockCommand bo)
      ∧ (∃ children, objects e2 !! 0%nat = Some (MultiCommand children) ∧ ib ∈ children)
      ∧ (∃ children, objects e2 !! 1%nat = Some (MultiCommand children) ∧ ob ∈ children)
      ∧ Schema.getAttributeProperties (schema e2) "blockIndent" !! "isFormatting"
        = Some true.
Proof.
  split; [reflexivity |].
  split; [vm_compute; reflexivity |]. split; [reflexivity |].
  split; [vm_compute; reflexivity |]. split; [reflexivity |].
  split; [vm_compute; reflexivity |]. split; [vm_compute; reflexivity |].
  apply (afterInit_links_commands Examples.editor_text_indent Examples.offset_config
           0%nat 1%nat [] []);
    first [reflexivity | vm_compute; reflexivity].
Defined.

(** On the example editor: 'indentBlock' is object 2 and 'indent' (object 0)
    ends up with children [2]; 'outdentBlock' is object 3 and 'outdent'
    (object 1) ends up with children [3]. *)
Example init_afterInit_example :
  (match init Examples.editor_text_indent ≫= afterInit with
   | Ok e2 => Some (objects e2 !! 0%nat, objects e2 !! 1%nat,
                    commands e2 !! "indentBlock", commands e2 !! "outdentBlock")
   | Throw _ => None
   end)
  = Some (Some (MultiCommand [ 2%nat ]), Some (MultiCommand [ 3%nat ]),
          Some 2%nat, Some 3%nat).
Proof. vm_compute. reflexivity. Qed.

(** ** The constructor's defaults *)

(** What the literal is meant to denote: written with U+003A throughout, it
    evaluates to attribute = 'margin-left', offset = 40, unit = 'px', and
    [config.define] makes these the configuration when the user gave none. *)
Lemma intended_defaults (e : Editor) :
  config_indentBlock e = None →
  evalObjectLiteral
    [ mkProperty "attribute" COLON (StringLiteral "margin-left");
      mkProperty "offset" COLON (NumericLiteral 40);
      mkProperty "unit" COLON (StringLiteral "px") ]
  = Ok (mkConfig (Some "margin-left") (Some 40%Z) (Some "px") None)
  ∧ config_indentBlock
      (config_define (mkConfig (Some "margin-left") (Some 40%Z) (Some "px") None) e)
    = Some (mkConfig (Some "margin-left") (Some 40%Z) (Some "px") None).
Proof.
  intros Hnone. split; [reflexivity |].
  unfold config_define. rewrite Hnone. reflexivity.
Qed.

(** C5. The constructor is meant to define the defaults attribute =
    'margin-left', offset = 40, unit = 'px', but as written it does not: the
    character after [attribute] in the defaults literal is U+FF1A, not U+003A,
    so the literal is a syntax error and [config.define] never receives the
    defaults; no default is defined, whatever the editor. *)
Theorem constructor_defaults_not_defined (e : Editor) :
  prop_separator <$> head defaults_literal = Some FULLWIDTH_COLON
  ∧ FULLWIDTH_COLON ≠ COLON
  ∧ evalObjectLiteral defaults_literal = Throw (SyntaxError "Invalid character")
  ∧ constructor e = Throw (SyntaxError "Invalid character").
Proof.
  split; [reflexivity |]. split; [discriminate |]. split; reflexivity.
Qed.

(** * Further properties of the plugin *)

(** ** The class definition built by [_setupConversionUsingClasses] *)



(** ** What [init] leaves alone *)

Lemma commands_add_taken (cmdName : string) (c : Command) (e : Editor) (r : nat) :
  commands e !! cmdName = Some r →
  commands_add cmdName c e = Throw (CKEditorError "commandcollection-command-already-registered").
Proof. intros H. unfold commands_add. by rewrite H. Qed.

Lemma classes_condition_false (cfg : IndentBlockConfig) :
  classes_condition cfg = false ↔ cfg_classes cfg = None ∨ cfg_classes cfg = Some [].
Proof.
  unfold classes_condition. destruct (cfg_classes cfg) as [[| c cs] |]; cbn.
  - split; [by right | done].
  - split; [discriminate | by intros [[=] | [=]]].
  - split; [by left | done].
Qed.

Lemma init_ok_inv (e e' : Editor) :
  init e = Ok e' →
  ∃ cfg, config_indentBlock e = Some cfg
         ∧ commands e !! "indentBlock" = None
         ∧ commands e !! "outdentBlock" = None.
Proof.
  unfold init. destruct (config_indentBlock e) as [cfg |]; [| discriminate].
  intros H. exists cfg. split; [reflexivity |].
  destruct (commands e !! "indentBlock") as [r |] eqn:Hi.
  { destruct (classes_condition cfg);
      erewrite commands_add_taken in H by exact Hi; discriminate H. }
  split; [reflexivity |].
  destruct (commands e !! "outdentBlock") as [r |] eqn:Ho; [| reflexivity].
  destruct (classes_condition cfg);
    rewrite commands_add_fresh in H by exact Hi;
    cbn [mbind Result_bind] in H;
    erewrite commands_add_taken in H
      by (cbn [commands]; rewrite lookup_insert_ne by discriminate; exact Ho);
    discriminate H.
Qed.

Lemma init_result_shape (e e' : Editor) :
  init e = Ok e' →
  ∃ regs rules c1 c2,
    e' = mkEditor (config_indentBlock e) (config_heading_options e) (indentBlock_attribute e)
           (contentLanguageDirection e) (conversion e ++ regs) (styleProcessorRules e ++ rules)
           (objects e ++ [ c1; c2 ])
           (<["outdentBlock" := S (length (objects e))]>
              (<["indentBlock" := length (objects e)]> (commands e)))
           (schema e).
Proof.
  intros H. destruct (init_ok_inv e e' H) as (cfg & Hcfg & Hi & Ho).
  destruct (classes_condition cfg) eqn:Hc.
  - apply classes_condition_true in Hc as (classes & Hcls & Hne).
    rewrite (init_using_classes e cfg classes Hcfg Hcls Hne Hi Ho) in H.
    injection H as <-.
    exists [ TwoWay (classesDefinition classes) ], [],
      (IndentBlockCommand (IndentUsingClasses forward classes)),
      (IndentBlockCommand (IndentUsingClasses backward classes)).
    rewrite app_nil_r. reflexivity.
  - rewrite (init_using_offset e cfg Hcfg Hc Hi Ho) in H.
    injection H as <-. eexists _, _, _, _. reflexivity.
Qed.

(** X2. Whatever strategy it picks, a completed [init] only adds: the
    configuration, locale data and schema are as before, the conversion
    registrations and style processor rules made earlier are still there in
    front of the new ones, the command objects that existed are unchanged,
    exactly two objects are created, every other command name still refers to
    what it referred to, and 'indentBlock' and 'outdentBlock' refer to the two
    new objects, in that order. *)
Theorem init_frame (e e' : Editor) :
  init e = Ok e' →
  config_indentBlock e' = config_indentBlock e
  ∧ config_heading_options e' = config_heading_options e
  ∧ indentBlock_attribute e' = indentBlock_attribute e
  ∧ contentLanguageDirection e' = contentLanguageDirection e
  ∧ schema e' = schema e
  ∧ conversion e `prefix_of` conversion e'
  ∧ styleProcessorRules e `prefix_of` styleProcessorRules e'
  ∧ length (objects e') = (length (objects e) + 2)%nat
  ∧ (∀ r, (r < length (objects e))%nat → objects e' !! r = objects e !! r)
  ∧ (∀ n, n ≠ "indentBlock" → n ≠ "outdentBlock" → commands e' !! n = commands e !! n)
  ∧ commands e' !! "indentBlock" = Some (length (objects e))
  ∧ commands e' !! "outdentBlock" = Some (S (length (objects e))).
Proof.
  intros H. destruct (init_result_shape e e' H) as (regs & rules & c1 & c2 & ->).
  cbn [config_indentBlock config_heading_options indentBlock_attribute
       contentLanguageDirection schema conversion styleProcessorRules objects commands].
  do 5 (split; [reflexivity |]).
  split; [by apply prefix_app_r |]. split; [by apply prefix_app_r |].
  split; [rewrite length_app; reflexivity |].
  split; [intros r Hr; by apply lookup_app_l |].
  split; [intros n H1 H2; by rewrite !lookup_insert_ne |].
  split; [rewrite lookup_insert_ne by discriminate |]; apply lookup_insert_eq.
Qed.

Lemma init_frame_witness :
  ∃ e',
    init Examples.editor_classes = Ok e'
    ∧ (config_indentBlock e' = config_indentBlock Examples.editor_classes
       ∧ config_heading_options e' = config_heading_options Examples.editor_classes
       ∧ indentBlock_attribute e' = indentBlock_attribute Examples.editor_classes
       ∧ contentLanguageDirection e' = contentLanguageDirection Examples.editor_classes
       ∧ schema e' = schema Examples.editor_classes
       ∧ conversion Examples.editor_classes `prefix_of` conversion e'
       ∧ styleProcessorRules Examples.editor_classes `prefix_of` styleProcessorRules e'
       ∧ length (objects e') = (length (objects Examples.editor_classes) + 2)%nat
       ∧ (∀ r, (r < length (objects Examples.editor_classes))%nat →
               objects e' !! r = objects Examples.editor_classes !! r)
       ∧ (∀ n, n ≠ "indentBlock" → n ≠ "outdentBlock" →
               commands e' !! n = commands Examples.editor_classes !! n)
       ∧ commands e' !! "indentBlock" = Some (length (objects Examples.editor_classes))
       ∧ commands e' !! "outdentBlock"
         = Some (S (length (objects Examples.editor_classes)))).
Proof.
  eexists. split.
  - apply (init_using_classes Examples.editor_classes Examples.classes_config
             [ "indent-a"; "indent-b" ]);
      first [reflexivity | discriminate | vm_compute; reflexivity].
  - apply (init_frame Examples.editor_classes).
    apply (init_using_classes Examples.editor_classes Examples.classes_config
             [ "indent-a"; "indent-b" ]);
      first [reflexivity | discriminate | vm_compute; reflexivity].
Defined.

(** X3. In offset mode the two commands are built from the configuration
    alone: 'indentBlock' steps forward and 'outdentBlock' backward, both with
    the configured [attribute], [offset] and [unit] passed on unchanged
    (absent values stay absent). [editor.indentBlock.attribute] and the
    content direction, which pick the style property of the conversion, have
    no influence on the commands. *)
Theorem init_offset_commands (e e' : Editor) (cfg : IndentBlockConfig)
    (a : option string) (d : LanguageDirection) :
  init e = Ok e' →
  config_indentBlock e = Some cfg →
  cfg_classes cfg = None ∨ cfg_classes cfg = Some [] →
  commands_get "indentBlock" e'
    = Some (IndentBlockCommand
              (IndentUsingOffset forward (cfg_attribute cfg) (cfg_offset cfg) (cfg_unit cfg)))
  ∧ commands_get "outdentBlock" e'
    = Some (IndentBlockCommand
              (IndentUsingOffset backward (cfg_attribute cfg) (cfg_offset cfg) (cfg_unit cfg)))
  ∧ ∃ e'',
      init (mkEditor (config_indentBlock e) (config_heading_options e) a d (conversion e)
              (styleProcessorRules e) (objects e) (commands e) (schema e)) = Ok e''
      ∧ objects e'' = objects e'
      ∧ commands e'' = commands e'.
Proof.
  intros H Hcfg Hcls. apply classes_condition_false in Hcls.
  destruct (init_ok_inv e e' H) as (cfg' & Hcfg' & Hi & Ho).
  rewrite (init_using_offset e cfg Hcfg Hcls Hi Ho) in H. injection H as <-.
  split; [apply commands_get_after_init |].
  split; [apply commands_get_after_init |].
  eexists. split.
  - apply (init_using_offset _ cfg); [exact Hcfg | exact Hcls | exact Hi | exact Ho].
  - by split.
Qed.

Lemma init_offset_commands_witness :
  ∃ e',
    init Examples.editor_text_indent = Ok e'
    ∧ config_indentBlock Examples.editor_text_indent = Some Examples.offset_config
    ∧ (cfg_classes Examples.offset_config = None
       ∨ cfg_classes Examples.offset_config = Some [])
    ∧ (commands_get "indentBlock" e'
       = Some (IndentBlockCommand
                 (IndentUsingOffset forward (cfg_attribute Examples.offset_config)
                    (cfg_offset Examples.offset_config) (cfg_unit Examples.offset_config)))
       ∧ commands_get "outdentBlock" e'
         = Some (IndentBlockCommand
                   (IndentUsingOffset backward (cfg_attribute Examples.offset_config)
                      (cfg_offset Examples.offset_config) (cfg_unit Examples.offset_config)))
       ∧ ∃ e'',
           init (mkEditor (config_indentBlock Examples.editor_text_indent)
                   (config_heading_options Examples.editor_text_indent) None rtl
                   (conversion Examples.editor_text_indent)
                   (styleProcessorRules Examples.editor_text_indent)
                   (objects Examples.editor_text_indent)
                   (commands Examples.editor_text_indent)
                   (schema Examples.editor_text_indent)) = Ok e''
           ∧ objects e'' = objects e'
           ∧ commands e'' = commands e').
Proof.
  eexists. split.
  - apply (init_using_offset Examples.editor_text_indent Examples.offset_config);
      first [reflexivity | vm_compute; reflexivity].
  - split; [reflexivity |]. split; [by left |].
    apply (init_offset_commands Examples.editor_text_indent _ Examples.offset_config None rtl);
      [| reflexivity | by left].
    apply (init_using_offset Examples.editor_text_indent Examples.offset_config);
      first [reflexivity | vm_compute; reflexivity].
Defined.

(** ** What [afterInit] does to the schema *)

Lemma extend_effect (a attr : string) (s : Schema.Schema) :
  Schema.isRegistered s a = true →
  ∃ s1,
    Schema.extend a attr s = Ok s1
    ∧ (∀ n, Schema.isRegistered s1 n = Schema.isRegistered s n)
    ∧ (∀ n b, Schema.checkAttribute s1 n b = true
              ↔ Schema.checkAttribute s n b = true ∨ (b = attr ∧ n = a)).
Proof.
  intros Hreg. apply isRegistered_true in Hreg as [allowed Hdef].
  unfold Schema.extend. rewrite Hdef. eexists. split; [reflexivity |]. split.
  - intros n. unfold Schema.isRegistered; cbn [Schema.definitions].
    destruct (decide (a = n)) as [<- | Hne].
    + rewrite lookup_insert_eq, Hdef. rewrite !bool_decide_eq_true_2 by by eexists.
      reflexivity.
    + by rewrite lookup_insert_ne.
  - intros n b. unfold Schema.checkAttribute; cbn [Schema.definitions].
    destruct (decide (a = n)) as [<- | Hne].
    + rewrite lookup_insert_eq, Hdef. rewrite !bool_decide_eq_true.
      rewrite elem_of_app, list_elem_of_singleton. split.
      * intros [Hin | ->]; [by left | right; by split].
      * intros [Hin | [-> _]]; [by left | by right].
    + rewrite lookup_insert_ne by exact Hne. split; [by left |].
      intros [H | [_ ->]]; [exact H | by destruct Hne].
Qed.

Lemma extendKnownElements_permissions (names : list string) (s : Schema.Schema) :
  ∃ s',
    extendKnownElements names s = Ok s'
    ∧ ∀ n a, Schema.checkAttribute s' n a = true
             ↔ Schema.checkAttribute s n a = true
               ∨ (a = "blockIndent" ∧ n ∈ names ∧ Schema.isRegistered s n = true).
Proof.
  revert s. induction names as [| x names IH]; intros s.
  - exists s. split; [reflexivity |]. intros n a. split; [by left |].
    intros [H | (_ & Hin & _)]; [exact H | by apply elem_of_nil in Hin].
  - cbn [extendKnownElements]. destruct (Schema.isRegistered s x) eqn:Hreg.
    + destruct (extend_effect x "blockIndent" s Hreg) as (s1 & Hext & Hr1 & Hc1).
      rewrite Hext. cbn [mbind Result_bind].
      destruct (IH s1) as (s' & Hrun & Hc). exists s'. split; [exact Hrun |].
      intros n a. rewrite Hc, Hc1, Hr1, elem_of_cons. split.
      * intros [[HA | [Ha ->]] | (Ha & Hin & HR)];
          [by left | right; split; [exact Ha | split; [by left | exact Hreg]]
           | right; split; [exact Ha | split; [by right | exact HR]]].
      * intros [HA | (Ha & [-> | Hin] & HR)];
          [left; by left | left; right; by split | right; by repeat split].
    + destruct (IH s) as (s' & Hrun & Hc). exists s'. split; [exact Hrun |].
      intros n a. rewrite Hc, elem_of_cons. split.
      * intros [HA | (Ha & Hin & HR)];
          [by left | right; split; [exact Ha | split; [by right | exact HR]]].
      * intros [HA | (Ha & [-> | Hin] & HR)];
          [by left | congruence | right; by repeat split].
Qed.

(** X4. After [afterInit], an attribute is allowed on an element exactly when
    it was allowed before, or it is 'blockIndent' and the element is a known
    element that is registered; no element becomes registered or
    unregistered. *)
Theorem afterInit_permissions (e e' : Editor) (n a : string) :
  afterInit e = Ok e' →
  Schema.isRegistered (schema e') n = Schema.isRegistered (schema e) n
  ∧ (Schema.checkAttribute (schema e') n a = true
     ↔ Schema.checkAttribute (schema e) n a = true
       ∨ (a = "blockIndent" ∧ n ∈ knownElements e
          ∧ Schema.isRegistered (schema e) n = true)).
Proof.
  intros H. apply afterInit_schema in H as (s' & Hrun & ->).
  destruct (extendKnownElements_spec (knownElements e) (schema e))
    as (s1 & Hrun1 & Hr & _).
  destruct (extendKnownElements_permissions (knownElements e) (schema e))
    as (s2 & Hrun2 & Hc).
  rewrite Hrun in Hrun1, Hrun2. injection Hrun1 as <-. injection Hrun2 as <-.
  split; [exact (Hr n) | exact (Hc n a)].
Qed.

Lemma afterInit_permissions_witness :
  ∃ e',
    afterInit InitialisedExamples.editor_initialised = Ok e'
    ∧ (Schema.isRegistered (schema e') "heading1"
       = Schema.isRegistered (schema InitialisedExamples.editor_initialised) "heading1"
       ∧ (Schema.checkAttribute (schema e') "heading1" "blockIndent" = true
          ↔ Schema.checkAttribute (schema InitialisedExamples.editor_initialised)
              "heading1" "blockIndent" = true
            ∨ ("blockIndent" = "blockIndent"
               ∧ "heading1" ∈ knownElements InitialisedExamples.editor_initialised
               ∧ Schema.isRegistered (schema InitialisedExamples.editor_initialised)
                   "heading1" = true))).
Proof.
  eexists. split; [vm_compute; reflexivity |].
  apply (afterInit_permissions InitialisedExamples.editor_initialised _
           "heading1" "blockIndent").
  vm_compute; reflexivity.
Defined.

Lemma afterInit_checkAttribute (e e' : Editor) (n a : string) :
  afterInit e = Ok e' →
  Schema.checkAttribute (schema e') n a = true
  ↔ Schema.checkAttribute (schema e) n a = true
    ∨ (a = "blockIndent" ∧ n ∈ knownElements e ∧ Schema.isRegistered (schema e) n = true).
Proof.
  intros H. apply afterInit_schema in H as (s' & Hrun & ->).
  destruct (extendKnownElements_permissions (knownElements e) (schema e))
    as (s2 & Hrun2 & Hc).
  rewrite Hrun in Hrun2. injection Hrun2 as <-. exact (Hc n a).
Qed.

(** X5. Configured heading options replace the default element list, they do
    not extend it: when [heading.options] is defined, an element whose name is
    not the [model] of one of the options keeps exactly the attribute
    permissions it had, 'paragraph' and the default headings included. *)
Theorem afterInit_heading_options (e e' : Editor) (options : list HeadingOption)
    (n a : string) :
  afterInit e = Ok e' →
  config_heading_options e = Some options →
  n ∉ map model options →
  Schema.checkAttribute (schema e') n a = Schema.checkAttribute (schema e) n a.
Proof.
  intros H Hopt Hn.
  pose proof (afterInit_checkAttribute e e' n a H) as Hiff.
  assert (Hk : knownElements e = map model options).
  { unfold knownElements. by rewrite Hopt. }
  rewrite Hk in Hiff.
  destruct (Schema.checkAttribute (schema e) n a) eqn:Hold.
  - apply Hiff. by left.
  - destruct (Schema.checkAttribute (schema e') n a) eqn:Hnew; [| reflexivity].
    destruct (proj1 Hiff eq_refl) as [Habs | (_ & Hin & _)]; [discriminate | contradiction].
Qed.

Lemma afterInit_heading_options_witness :
  ∃ e',
    afterInit InitialisedExamples.editor_headings = Ok e'
    ∧ config_heading_options InitialisedExamples.editor_headings
      = Some [ mkHeadingOption "heading1" "Heading 1" ]
    ∧ ("paragraph" ∉ map model [ mkHeadingOption "heading1" "Heading 1" ])
    ∧ Schema.checkAttribute (schema e') "paragraph" "blockIndent"
      = Schema.checkAttribute (schema InitialisedExamples.editor_headings)
          "paragraph" "blockIndent".
Proof.
  eexists. split; [vm_compute; reflexivity |].
  split; [reflexivity |].
  assert (Hn : "paragraph" ∉ map model [ mkHeadingOption "heading1" "Heading 1" ]).
  { cbn [map model]. rewrite list_elem_of_singleton. discriminate. }
  split; [exact Hn |].
  apply (afterInit_heading_options InitialisedExamples.editor_headings _
           [ mkHeadingOption "heading1" "Heading 1" ] "paragraph" "blockIndent");
    [vm_compute; reflexivity | reflexivity | exact Hn].
Defined.

(** With heading options naming only 'heading1', the registered 'paragraph'
    does not get 'blockIndent' while 'heading1' does. *)
Example heading_options_example :
  (match afterInit InitialisedExamples.editor_headings with
   | Ok e' => Some (Schema.checkAttribute (schema e') "paragraph" "blockIndent",
                    Schema.checkAttribute (schema e') "heading1" "blockIndent")
   | Throw _ => None
   end) = Some (false, true).
Proof. vm_compute. reflexivity. Qed.

Lemma extendKnownElements_calls (names : list string) (s : Schema.Schema) :
  ∃ s',
    extendKnownElements names s = Ok s'
    ∧ Schema.calls s' =
        Schema.calls s
        ++ map (fun n => Schema.CallExtend n "blockIndent")
             (filter (fun n => Schema.isRegistered s n = true) names).
Proof.
  revert s. induction names as [| x names IH]; intros s.
  - exists s. split; [reflexivity |]. by rewrite filter_nil, app_nil_r.
  - cbn [extendKnownElements]. destruct (Schema.isRegistered s x) eqn:Hreg.
    + destruct (extend_effect x "blockIndent" s Hreg) as (s1 & Hext & Hr1 & _).
      assert (Hcalls : Schema.calls s1
                       = Schema.calls s ++ [ Schema.CallExtend x "blockIndent" ]).
      { apply isRegistered_true in Hreg as [allowed Hdef].
        unfold Schema.extend in Hext. rewrite Hdef in Hext. by injection Hext as <-. }
      rewrite Hext. cbn [mbind Result_bind].
      destruct (IH s1) as (s' & Hrun & Hc). exists s'. split; [exact Hrun |].
      rewrite Hc, Hcalls, filter_cons_True by exact Hreg.
      rewrite <- app_assoc. cbn [map app]. do 3 f_equal.
      apply list_filter_iff. intros n. by rewrite Hr1.
    + destruct (IH s) as (s' & Hrun & Hc). exists s'. split; [exact Hrun |].
      by rewrite filter_cons_False by (by rewrite Hreg).
Qed.

(** X6. The calls [afterInit] makes on the schema are, in this order: one
    [extend( name, { allowAttributes: 'blockIndent' } )] for each known
    element that is registered, in the order of the list, and then a single
    [setAttributeProperties( 'blockIndent', { isFormatting: true } )]; it
    makes no other call. *)
Theorem afterInit_schema_calls (e e' : Editor) :
  afterInit e = Ok e' →
  Schema.calls (schema e') =
    Schema.calls (schema e)
    ++ map (fun n => Schema.CallExtend n "blockIndent")
         (filter (fun n => Schema.isRegistered (schema e) n = true) (knownElements e))
    ++ [ Schema.CallSetAttributeProperties "blockIndent" {[ "isFormatting" := true ]} ].
Proof.
  intros H. apply afterInit_schema in H as (s' & Hrun & ->).
  destruct (extendKnownElements_calls (knownElements e) (schema e)) as (s2 & Hrun2 & Hc).
  rewrite Hrun in Hrun2. injection Hrun2 as <-.
  unfold Schema.setAttributeProperties. cbn [Schema.calls].
  by rewrite Hc, <- app_assoc.
Qed.

Lemma afterInit_schema_calls_witness :
  ∃ e',
    afterInit InitialisedExamples.editor_initialised = Ok e'
    ∧ Schema.calls (schema e') =
        Schema.calls (schema InitialisedExamples.editor_initialised)
        ++ map (fun n => Schema.CallExtend n "blockIndent")
             (filter (fun n => Schema.isRegistered
                                 (schema InitialisedExamples.editor_initialised) n = true)
                (knownElements InitialisedExamples.editor_initialised))
        ++ [ Schema.CallSetAttributeProperties "blockIndent" {[ "isFormatting" := true ]} ].
Proof.
  eexists. split; [vm_compute; reflexivity |].
  apply (afterInit_schema_calls InitialisedExamples.editor_initialised).
  vm_compute; reflexivity.
Defined.

(** ** When [afterInit] completes, and what it leaves alone *)

Lemma registerChildCommand_inv (p c : option nat) (e e' : Editor) :
  registerChildCommand p c e = Ok e' →
  ∃ pi cc children,
    p = Some pi ∧ c = Some cc
    ∧ objects e !! pi = Some (MultiCommand children)
    ∧ e' = mkEditor (config_indentBlock e) (config_heading_options e)
             (indentBlock_attribute e) (contentLanguageDirection e) (conversion e)
             (styleProcessorRules e)
             (<[pi := MultiCommand (children ++ [ cc ])]> (objects e))
             (commands e) (schema e).
Proof.
  unfold registerChildCommand.
  destruct p as [pi |]; [| discriminate].
  destruct (objects e !! pi) as [[b | children | l] |] eqn:Hobj; try discriminate.
  destruct c as [cc |]; [| discriminate].
  intros [= <-]. by exists pi, cc, children.
Qed.

Lemma afterInit_inv (e e' : Editor) :
  afterInit e = Ok e' →
  ∃ i ci o co ib ob,
    commands e !! "indent" = Some i
    ∧ objects e !! i = Some (MultiCommand ci)
    ∧ commands e !! "outdent" = Some o
    ∧ objects e !! o = Some (MultiCommand co)
    ∧ commands e !! "indentBlock" = Some ib
    ∧ commands e !! "outdentBlock" = Some ob.
Proof.
  unfold afterInit.
  destruct (extendKnownElements (knownElements e) (schema e)) as [s' | err]; [| discriminate].
  cbn [mbind Result_bind].
  destruct (registerChildCommand (commands e !! "indent") _ _) as [e1 | err] eqn:H1;
    [| discriminate].
  intros H2.
  apply registerChildCommand_inv in H1 as (i & ib & ci & Hi & Hib & Hoi & ->).
  apply registerChildCommand_inv in H2 as (o & ob & co' & Ho & Hob & Hoo & _).
  cbn [commands objects set_schema] in *.
  assert (Hco : ∃ co, objects e !! o = Some (MultiCommand co)).
  { destruct (decide (i = o)) as [<- | Hne]; [by eexists |].
    rewrite list_lookup_insert_ne in Hoo by exact Hne. by eexists. }
  destruct Hco as [co Hco].
  by exists i, ci, o, co, ib, ob.
Qed.

Lemma afterInit_result (e : Editor) (i o ib ob : nat) (ci co : list nat)
    (s' : Schema.Schema) :
  extendKnownElements (knownElements e) (schema e) = Ok s' →
  commands e !! "indent" = Some i →
  objects e !! i = Some (MultiCommand ci) →
  commands e !! "outdent" = Some o →
  objects e !! o = Some (MultiCommand co) →
  commands e !! "indentBlock" = Some ib →
  commands e !! "outdentBlock" = Some ob →
  afterInit e =
  Ok (mkEditor (config_indentBlock e) (config_heading_options e) (indentBlock_attribute e)
        (contentLanguageDirection e) (conversion e) (styleProcessorRules e)
        (<[o := MultiCommand ((if decide (o = i) then ci ++ [ ib ] else co) ++ [ ob ])]>
           (<[i := MultiCommand (ci ++ [ ib ])]> (objects e)))
        (commands e)
        (Schema.setAttributeProperties "blockIndent" {[ "isFormatting" := true ]} s')).
Proof.
  intros Hrun Hi Hoi Ho Hoo Hib Hob.
  pose proof (lookup_lt_Some _ _ _ Hoi) as Hlt.
  unfold afterInit. rewrite Hrun, Hi, Ho. cbn [mbind Result_bind].
  unfold set_schema. cbn [commands]. rewrite Hib.
  rewrite (registerChildCommand_ok _ i ib ci) by exact Hoi.
  cbn [mbind Result_bind commands objects config_indentBlock config_heading_options
       indentBlock_attribute contentLanguageDirection conversion styleProcessorRules schema].
  rewrite Hob.
  destruct (decide (o = i)) as [-> | Hne].
  - rewrite (registerChildCommand_ok _ i ob (ci ++ [ ib ]))
      by (cbn [objects]; by apply list_lookup_insert_eq).
    reflexivity.
  - rewrite (registerChildCommand_ok _ o ob co)
      by (cbn [objects]; by rewrite list_lookup_insert_ne).
    reflexivity.
Qed.

(** X7. [afterInit] runs to completion if and only if 'indent' and 'outdent'
    are registered and are multi-commands, and 'indentBlock' and
    'outdentBlock' are registered; in every other case it throws, in
    particular when the Indent plugin that provides 'indent' and 'outdent' is
    not loaded. *)
Theorem afterInit_completes_iff (e : Editor) :
  (∃ e', afterInit e = Ok e')
  ↔ (∃ i ci, commands e !! "indent" = Some i ∧ objects e !! i = Some (MultiCommand ci))
    ∧ (∃ o co, commands e !! "outdent" = Some o ∧ objects e !! o = Some (MultiCommand co))
    ∧ is_Some (commands e !! "indentBlock")
    ∧ is_Some (commands e !! "outdentBlock").
Proof.
  split.
  - intros [e' H].
    apply afterInit_inv in H as (i & ci & o & co & ib & ob & Hi & Hoi & Ho & Hoo & Hib & Hob).
    split; [by exists i, ci |]. split; [by exists o, co |]. split; by eexists.
  - intros ((i & ci & Hi & Hoi) & (o & co & Ho & Hoo) & [ib Hib] & [ob Hob]).
    destruct (extendKnownElements_spec (knownElements e) (schema e)) as (s' & Hrun & _).
    eexists. exact (afterInit_result e i o ib ob ci co s' Hrun Hi Hoi Ho Hoo Hib Hob).
Qed.

(** Without the 'indent' command [afterInit] ends in a TypeError. *)
Example afterInit_without_indent :
  afterInit InitialisedExamples.editor_without_indent
  = Throw (TypeError "cannot read registerChildCommand of undefined").
Proof. vm_compute. reflexivity. Qed.

(** X8. A completed [afterInit] changes nothing but the schema and the two
    multi-command objects: configuration, conversion registrations, style
    processor rules and the command registry are as before, no command object
    is created or removed, and every object other than those registered as
    'indent' and 'outdent' is unchanged. *)
Theorem afterInit_frame (e e' : Editor) (r : nat) :
  afterInit e = Ok e' →
  commands e !! "indent" ≠ Some r →
  commands e !! "outdent" ≠ Some r →
  config_indentBlock e' = config_indentBlock e
  ∧ config_heading_options e' = config_heading_options e
  ∧ indentBlock_attribute e' = indentBlock_attribute e
  ∧ contentLanguageDirection e' = contentLanguageDirection e
  ∧ conversion e' = conversion e
  ∧ styleProcessorRules e' = styleProcessorRules e
  ∧ commands e' = commands e
  ∧ length (objects e') = length (objects e)
  ∧ objects e' !! r = objects e !! r.
Proof.
  intros H Hri Hro.
  pose proof H as Hinv.
  apply afterInit_inv in Hinv
    as (i & ci & o & co & ib & ob & Hi & Hoi & Ho & Hoo & Hib & Hob).
  destruct (extendKnownElements_spec (knownElements e) (schema e)) as (s' & Hrun & _).
  rewrite (afterInit_result e i o ib ob ci co s' Hrun Hi Hoi Ho Hoo Hib Hob) in H.
  injection H as <-.
  cbn [config_indentBlock config_heading_options indentBlock_attribute
       contentLanguageDirection conversion styleProcessorRules commands objects].
  do 7 (split; [reflexivity |]).
  split; [by rewrite !length_insert |].
  rewrite !list_lookup_insert_ne; [reflexivity | congruence | congruence].
Qed.

Lemma afterInit_frame_witness :
  ∃ e',
    afterInit InitialisedExamples.editor_initialised = Ok e'
    ∧ commands InitialisedExamples.editor_initialised !! "indent" ≠ Some 2%nat
    ∧ commands InitialisedExamples.editor_initialised !! "outdent" ≠ Some 2%nat
    ∧ (config_indentBlock e' = config_indentBlock InitialisedExamples.editor_initialised
       ∧ config_heading_options e'
         = config_heading_options InitialisedExamples.editor_initialised
       ∧ indentBlock_attribute e'
         = indentBlock_attribute InitialisedExamples.editor_initialised
       ∧ contentLanguageDirection e'
         = contentLanguageDirection InitialisedExamples.editor_initialised
       ∧ conversion e' = conversion InitialisedExamples.editor_initialised
       ∧ styleProcessorRules e' = styleProcessorRules InitialisedExamples.editor_initialised
       ∧ commands e' = commands InitialisedExamples.editor_initialised
       ∧ length (objects e') = length (objects InitialisedExamples.editor_initialised)
       ∧ objects e' !! 2%nat = objects InitialisedExamples.editor_initialised !! 2%nat).
Proof.
  eexists. split; [vm_compute; reflexivity |].
  assert (H1 : commands InitialisedExamples.editor_initialised !! "indent" ≠ Some 2%nat)
    by (vm_compute; discriminate).
  assert (H2 : commands InitialisedExamples.editor_initialised !! "outdent" ≠ Some 2%nat)
    by (vm_compute; discriminate).
  split; [exact H1 |]. split; [exact H2 |].
  apply (afterInit_frame InitialisedExamples.editor_initialised _ 2%nat);
    [vm_compute; reflexivity | exact H1 | exact H2].
Defined.

(** ** Downcasting again *)

(** X9. The offset downcast rule writes one style property and nothing else:
    the element's name, classes and other styles are as before; a model
    attribute with another key leaves the element as it is; and downcasting a
    new value replaces the previous one, which the upcast rule then reads
    back on any element that is not a list item. *)
Theorem downcast_overwrites (e : Editor) (v w : string) (el : ViewElement) :
  w ≠ "" →
  is_element el "li" = false →
  name (downcast (downcastDefinition (marginProperty e)) ("blockIndent", v) el) = name el
  ∧ classes (downcast (downcastDefinition (marginProperty e)) ("blockIndent", v) el)
    = classes el
  ∧ (∀ p, p ≠ marginProperty e →
          getStyle (downcast (downcastDefinition (marginProperty e)) ("blockIndent", v) el) p
          = getStyle el p)
  ∧ (∀ k, k ≠ "blockIndent" →
          downcast (downcastDefinition (marginProperty e)) (k, v) el = el)
  ∧ downcast (downcastDefinition (marginProperty e)) ("blockIndent", w)
      (downcast (downcastDefinition (marginProperty e)) ("blockIndent", v) el)
    = downcast (downcastDefinition (marginProperty e)) ("blockIndent", w) el
  ∧ upcast (upcastDefinition (marginProperty e))
      (downcast (downcastDefinition (marginProperty e)) ("blockIndent", w)
         (downcast (downcastDefinition (marginProperty e)) ("blockIndent", v) el))
    = Some ("blockIndent", w).
Proof.
  intros Hw Hel. rewrite !downcast_is_setStyle.
  split; [reflexivity |]. split; [reflexivity |].
  split.
  { intros p Hp. unfold getStyle, setStyle; cbn [styles]. by rewrite lookup_insert_ne. }
  split.
  { intros k Hk. unfold downcast; cbn [fst down_model downcastDefinition].
    by rewrite bool_decide_eq_false_2. }
  assert (Hset : setStyle (marginProperty e) w (setStyle (marginProperty e) v el)
                 = setStyle (marginProperty e) w el).
  { unfold setStyle; cbn [name styles classes]. by rewrite insert_insert_eq. }
  split; [exact Hset |].
  rewrite Hset. unfold upcast. rewrite matches_upcastDefinition, getStyle_setStyle.
  rewrite bool_decide_eq_false_2 by exact Hw.
  cbn [negb up_model_value up_model_key upcastDefinition].
  assert (Hn : is_element (setStyle (marginProperty e) w el) "li" = false) by exact Hel.
  by rewrite Hn, getStyle_setStyle.
Qed.

Lemma downcast_overwrites_witness :
  "80px" ≠ ""
  ∧ is_element (Examples.bare "p") "li" = false
  ∧ (name (downcast (downcastDefinition (marginProperty Examples.editor_margin))
             ("blockIndent", "40px") (Examples.bare "p")) = name (Examples.bare "p")
     ∧ classes (downcast (downcastDefinition (marginProperty Examples.editor_margin))
                  ("blockIndent", "40px") (Examples.bare "p")) = classes (Examples.bare "p")
     ∧ (∀ p, p ≠ marginProperty Examples.editor_margin →
             getStyle (downcast (downcastDefinition (marginProperty Examples.editor_margin))
                         ("blockIndent", "40px") (Examples.bare "p")) p
             = getStyle (Examples.bare "p") p)
     ∧ (∀ k, k ≠ "blockIndent" →
             downcast (downcastDefinition (marginProperty Examples.editor_margin))
               (k, "40px") (Examples.bare "p") = Examples.bare "p")
     ∧ downcast (downcastDefinition (marginProperty Examples.editor_margin))
         ("blockIndent", "80px")
         (downcast (downcastDefinition (marginProperty Examples.editor_margin))
            ("blockIndent", "40px") (Examples.bare "p"))
       = downcast (downcastDefinition (marginProperty Examples.editor_margin))
           ("blockIndent", "80px") (Examples.bare "p")
     ∧ upcast (upcastDefinition (marginProperty Examples.editor_margin))
         (downcast (downcastDefinition (marginProperty Examples.editor_margin))
            ("blockIndent", "80px")
            (downcast (downcastDefinition (marginProperty Examples.editor_margin))
               ("blockIndent", "40px") (Examples.bare "p")))
       = Some ("blockIndent", "80px")).
Proof.
  split; [discriminate |]. split; [reflexivity |].
  apply (downcast_overwrites Examples.editor_margin "40px" "80px" (Examples.bare "p"));
    [discriminate | reflexivity].
Defined.

(** * Properties of the dropdown menu tree types *)

Import DropdownMenuTree.

Lemma Node_ind_children (P : Node → Prop) :
  (∀ s v, P (Item s v)) →
  (∀ s v children, Forall P children → P (Menu s v children)) →
  (∀ children, Forall P children → P (Root children)) →
  ∀ n, P n.
Proof.
  intros HItem HMenu HRoot.
  fix IH 1. intros [s v | s v children | children].
  - apply HItem.
  - apply HMenu. induction children as [| c cs IHcs]; constructor; [apply IH | exact IHcs].
  - apply HRoot. induction children as [| c cs IHcs]; constructor; [apply IH | exact IHcs].
Qed.

Lemma Increment_literal (l : nat) :
  (l < 10)%nat → IncrementDropdownTreeDepth (Lit l) = Lit (S l).
Proof.
  intros Hl. do 10 (destruct l as [| l]; [reflexivity |]). lia.
Qed.

Lemma max_list_with_le {A} (f : A → nat) (l : list A) (b : nat) :
  Forall (fun x => (f x ≤ b)%nat) l → (max_list_with f l ≤ b)%nat.
Proof.
  induction 1 as [| x l Hx _ IH]; cbn [max_list_with]; lia.
Qed.

Lemma childItem_depth (n : Node) :
  ∀ l, (l ≤ MaxDropdownTreeMenuDepth)%nat →
       isTreeChildItem (Lit l) n = true →
       (menuDepth n + l ≤ MaxDropdownTreeMenuDepth)%nat.
Proof.
  unfold MaxDropdownTreeMenuDepth.
  induction n as [s v | s v children IH | children IH] using Node_ind_children;
    intros l Hl Ht.
  - cbn [menuDepth]. lia.
  - cbn [isTreeChildItem] in Ht. apply andb_true_iff in Ht as [_ Ht].
    cbn [max_extends] in Ht. unfold MaxDropdownTreeMenuDepth in Ht.
    destruct (l =? 6)%nat eqn:Hl6; [discriminate |].
    apply Nat.eqb_neq in Hl6.
    rewrite Increment_literal in Ht by lia.
    rewrite forallb_forall in Ht.
    cbn [menuDepth].
    assert (Hmax : (max_list_with menuDepth children ≤ 6 - S l)%nat).
    { apply max_list_with_le. rewrite Forall_forall in IH |- *.
      intros c Hc. specialize (IH c Hc (S l)).
      assert (Hle : (menuDepth c + S l ≤ 6)%nat).
      { apply IH; [lia |]. apply Ht. by apply list_elem_of_In. }
      lia. }
    lia.
  - discriminate Ht.
Qed.

(** X10. The level index bounds the tree: in a value of the root tree type no
    branch nests more than [MaxDropdownTreeMenuDepth] = 6 menus, because a
    menu at level 6 would need [children] of type [never]. *)
Theorem rootTree_depth (n : Node) :
  isRootTree n = true →
  (menuDepth n ≤ MaxDropdownTreeMenuDepth)%nat.
Proof.
  destruct n as [s v | s v children | children]; try discriminate.
  cbn [isRootTree menuDepth]. intros Ht. rewrite forallb_forall in Ht.
  apply max_list_with_le. rewrite Forall_forall. intros c Hc.
  pose proof (childItem_depth c 0%nat) as H.
  rewrite Nat.add_0_r in H. apply H; [unfold MaxDropdownTreeMenuDepth; lia |].
  apply Ht. by apply list_elem_of_In.
Qed.

Lemma rootTree_depth_witness :
  isRootTree (Root [ nested 6; nested 2 ]) = true
  ∧ (menuDepth (Root [ nested 6; nested 2 ]) ≤ MaxDropdownTreeMenuDepth)%nat.
Proof.
  split; [reflexivity |].
  apply (rootTree_depth (Root [ nested 6; nested 2 ])). reflexivity.
Defined.

(** The bound is reached, and one more level is rejected. *)
Example rootTree_depth_tight :
  isRootTree (Root [ nested 6 ]) = true
  ∧ menuDepth (Root [ nested 6 ]) = 6%nat
  ∧ isRootTree (Root [ nested 7 ]) = false.
Proof. repeat split. Qed.

(** X11. A child item accepted at one level is accepted at the level above
    it: a subtree can be moved towards the root without leaving the type. *)
Theorem childItem_level_up (n : Node) (l : nat) :
  (S l ≤ MaxDropdownTreeMenuDepth)%nat →
  isTreeChildItem (Lit (S l)) n = true →
  isTreeChildItem (Lit l) n = true.
Proof.
  unfold MaxDropdownTreeMenuDepth. revert l.
  induction n as [s v | s v children IH | children IH] using Node_ind_children;
    intros l Hl Ht.
  - reflexivity.
  - cbn [isTreeChildItem] in Ht |- *. apply andb_true_iff in Ht as [Hv Ht].
    rewrite Hv. cbn [andb max_extends] in Ht |- *.
    unfold MaxDropdownTreeMenuDepth in Ht |- *.
    destruct (S l =? 6)%nat eqn:Hl6; [discriminate |].
    apply Nat.eqb_neq in Hl6.
    rewrite (proj2 (Nat.eqb_neq l 6)) by lia.
    rewrite Increment_literal in Ht by lia. rewrite Increment_literal by lia.
    rewrite forallb_forall in Ht |- *. intros c Hc.
    rewrite Forall_forall in IH. apply IH; [by apply list_elem_of_In | lia | by apply Ht].
  - discriminate Ht.
Qed.

Lemma childItem_level_up_witness :
  (S 1 ≤ MaxDropdownTreeMenuDepth)%nat
  ∧ isTreeChildItem (Lit (S 1)) (nested 4) = true
  ∧ isTreeChildItem (Lit 1) (nested 4) = true.
Proof.
  assert (H1 : (S 1 ≤ MaxDropdownTreeMenuDepth)%nat)
    by (unfold MaxDropdownTreeMenuDepth; lia).
  split; [exact H1 |]. split; [reflexivity |].
  apply (childItem_level_up (nested 4) 1%nat); [exact H1 | reflexivity].
Defined.
